(** * RevsTrackerBot: a shallow embedding of the wallet monitor

    The repository holds three versions of one Telegram bot that watches a
    single Solana wallet:

    - [index.js]: per-subscriber settings are a minimum amount and a blacklist;
    - the first file of [unnamed/part_000]: per-subscriber settings are a list
      of fixed amounts and a blacklist;
    - the second file of [unnamed/part_000]: no settings, a hardcoded list of
      fixed amounts.

    [parseSOLTransfers] and the scan for new signatures are the same text in
    the three files; they are embedded once.  The dispatch loop
    [notifyAllUsers] of the first two files differs only in its filter block
    and is embedded once, over that block.  The third file is embedded in its
    own module. *)

From Stdlib Require Import ZArith List Bool.
From Stdlib Require Import Floats.SpecFloat.
From stdpp Require Import gmap strings list fin_maps.

Open Scope string_scope.
Open Scope list_scope.
Open Scope stdpp_scope.

(** ** JavaScript numbers

    A JS number is an IEEE 754 binary64 value.  [spec_float] with precision 53
    and maximal exponent 1024 is that format, with correctly rounded
    operations. *)
Module JsNumber.

Definition prec : Z := 53.
Definition emax : Z := 1024.

Abbreviation number := spec_float.

Definition NaN : number := S754_nan.
Definition zero : number := S754_zero false.

(** An integer literal, or an integer that arrives in a JSON document. *)
Definition of_int (z : Z) : number := binary_normalize prec emax z 0 false.

Definition add (a b : number) : number := SFadd prec emax a b.
Definition sub (a b : number) : number := SFsub prec emax a b.
Definition div (a b : number) : number := SFdiv prec emax a b.
Definition abs (a : number) : number := SFabs a.

(** [a < b] and [a > b]: false as soon as one side is NaN. *)
Definition lt (a b : number) : bool := SFltb a b.
Definition gt (a b : number) : bool := SFltb b a.

(** SameValueZero, the equality of [Array.prototype.includes]. *)
Definition same_value_zero (a b : number) : bool :=
  match a, b with
  | S754_nan, S754_nan => true
  | _, _ => SFeqb a b
  end.

Definition includes (l : list number) (x : number) : bool :=
  existsb (fun a => same_value_zero a x) l.

(** A decimal literal [n / d] with [n] and [d] below 2^53: division rounds
    correctly, so the quotient is the double nearest to the decimal. *)
Definition decimal (n d : Z) : number := div (of_int n) (of_int d).

(** The literals of the source. *)
Definition lit_1e9 : number := of_int 1000000000.
Definition lit_0_001 : number := decimal 1 1000.

(** [a[i]] on an array of numbers: out of range it is [undefined], which
    every arithmetic operator turns into NaN. *)
Definition at_index (a : list Z) (i : nat) : number :=
  match a !! i with
  | Some z => of_int z
  | None => NaN
  end.

End JsNumber.
Import JsNumber.

(** ** Transactions and transfers *)

(** The fields of an RPC transaction that the bot reads:
    [transaction.meta.preBalances], [transaction.meta.postBalances] and
    [transaction.transaction.message.accountKeys] (each key through
    [toString()]).  Balances are integers, in lamports. *)
Record transaction := {
  preBalances : list Z;
  postBalances : list Z;
  accountKeys : list string
}.

Inductive transfer_type := incoming | outgoing.

Module Transfer.
Record transfer := {
  from : string;
  to : string;
  amount : number;
  type : transfer_type
}.
End Transfer.
Import Transfer.

(** The address the alert shows: [fromTo] of [notifyAllUsers]. *)
Definition fromTo (t : transfer) : string :=
  match type t with
  | incoming => from t
  | outgoing => to t
  end.

(** ** parseSOLTransfers *)

(** The first loop: the index of the first key equal to [targetWallet];
    [None] is the source's [-1]. *)
Fixpoint find_targetIndex (keys : list string) (targetWallet : string) (i : nat)
  : option nat :=
  match keys with
  | [] => None
  | k :: rest =>
      if String.eqb k targetWallet then Some i
      else find_targetIndex rest targetWallet (S i)
  end.

Section Parse.
Variable tx : transaction.
Variable targetWallet : string.

(** [(postBalances[i] - preBalances[i]) / 1e9] *)
Definition rise (i : nat) : number :=
  div (sub (at_index (postBalances tx) i) (at_index (preBalances tx) i)) lit_1e9.

(** [(preBalances[i] - postBalances[i]) / 1e9] *)
Definition drop_ (i : nat) : number :=
  div (sub (at_index (preBalances tx) i) (at_index (postBalances tx) i)) lit_1e9.

Definition sender_test (targetIndex : nat) (balanceChange : number) (i : nat) : bool :=
  negb (Nat.eqb i targetIndex)
  && lt (abs (sub (drop_ i) balanceChange)) lit_0_001.

Definition receiver_test (targetIndex : nat) (balanceChange : number) (i : nat) : bool :=
  negb (Nat.eqb i targetIndex)
  && (gt (rise i) zero && lt (abs (add (rise i) balanceChange)) lit_0_001).

(** The loop of the incoming branch, from index [i] over the keys that are
    left: push one transfer and [break] at the first hit. *)
Fixpoint find_sender (targetIndex : nat) (balanceChange : number)
    (keys : list string) (i : nat) : list transfer :=
  match keys with
  | [] => []
  | k :: rest =>
      if sender_test targetIndex balanceChange i
      then [ {| from := k; to := targetWallet;
                amount := balanceChange; type := incoming |} ]
      else find_sender targetIndex balanceChange rest (S i)
  end.

(** The loop of the outgoing branch. *)
Fixpoint find_receiver (targetIndex : nat) (balanceChange : number)
    (keys : list string) (i : nat) : list transfer :=
  match keys with
  | [] => []
  | k :: rest =>
      if receiver_test targetIndex balanceChange i
      then [ {| from := targetWallet; to := k;
                amount := abs balanceChange; type := outgoing |} ]
      else find_receiver targetIndex balanceChange rest (S i)
  end.

Definition parseSOLTransfers : list transfer :=
  match find_targetIndex (accountKeys tx) targetWallet 0 with
  | None => []
  | Some targetIndex =>
      let balanceChange := rise targetIndex in
      if gt balanceChange zero then
        find_sender targetIndex balanceChange (accountKeys tx) 0
      else if lt balanceChange zero then
        find_receiver targetIndex balanceChange (accountKeys tx) 0
      else []
  end.

End Parse.

(** ** Effects

    Every function of the bot is an [async] method that mutates the monitor
    object and talks to the outside: the RPC node, Telegram and the file
    [user_data.json].  An action takes the object and returns it together
    with the calls it made, oldest first. *)
Section Action.
Context {St Ev : Type}.

Definition action := St → St * list Ev.

Definition skip : action := λ m, (m, []).
Definition call (e : Ev) : action := λ m, (m, [e]).
Definition modify (f : St → St) : action := λ m, (f m, []).

Definition andThen (a b : action) : action := λ m,
  let '(m1, e1) := a m in
  let '(m2, e2) := b m1 in
  (m2, e1 ++ e2).

(** [for (const x of l) { await body(x) }] over an array that the body
    leaves alone. *)
Fixpoint for_of {A} (l : list A) (body : A → action) : action :=
  match l with
  | [] => skip
  | x :: rest => andThen (body x) (for_of rest body)
  end.

End Action.
Arguments action : clear implicits.
Declare Scope action_scope.
Notation "a ;; b" := (andThen a b) (at level 100, b at level 200) : action_scope.
Open Scope action_scope.

(** ** What the environment hands to the bot *)

(** An entry of [getSignaturesForAddress]. *)
Record signature_info := {
  signature : string;
  blockTime : Z
}.

(** How [bot.telegram.sendMessage] ends: it resolves, or it throws an error
    whose [response], when there is one, carries an [error_code]. *)
Inductive send_outcome :=
  | delivered
  | thrown (error_code : option Z).

(** [error.response && error.response.error_code === 403] *)
Definition blocked_the_bot (o : send_outcome) : bool :=
  match o with
  | thrown (Some code) => Z.eqb code 403
  | _ => false
  end.

(** A JS [Set] keeps insertion order and has no duplicates. *)
Definition set_add (x : Z) (s : list Z) : list Z :=
  if decide (x ∈ s) then s else s ++ [x].

Definition set_delete (x : Z) (s : list Z) : list Z :=
  filter (λ y, y ≠ x) s.

(** [!this.lastSignature]: [null] and the empty string are falsy. *)
Definition falsy (s : option string) : bool :=
  match s with
  | None => true
  | Some s => String.eqb s ""
  end.

(** The scan of [checkForNewTransactions]: push until the entry whose
    signature is the cursor, then [break].  [acc] is [newSignatures]. *)
Fixpoint scan_new (lastSignature : option string) (signatures : list signature_info)
    (acc : list signature_info) : list signature_info :=
  match signatures with
  | [] => acc
  | sig :: rest =>
      if decide (Some (signature sig) = lastSignature) then acc
      else scan_new lastSignature rest (acc ++ [sig])
  end.

Definition newSignatures (lastSignature : option string)
    (signatures : list signature_info) : list signature_info :=
  scan_new lastSignature signatures [].

(** ** The monitor of [index.js] and of the fixed-amounts file

    [settings] is the shape of a settings object, [fallback] the literal after
    [||] in [this.userSettings.get(chatId) || {...}], and [filters] the block
    under the comment "Фильтры": it answers whether [continue] is taken and
    returns the settings object as the block leaves it. *)
Section Monitor.
Variable settings : Type.
Variable fallback : settings.
Variable filters : transfer → settings → bool * settings.

(** The environment: the RPC node, Telegram, the [PublicKey] constructor
    (does it accept the string?) and [process.env.WALLET_ADDRESS]. *)
Variable getTransaction : string → option transaction.
Variable sendMessage : Z → signature_info → send_outcome.
Variable publicKey_ok : string → bool.
Variable monitoredWallet : string.

Record monitor := {
  userSettings : gmap Z settings;
  subscribedUsers : list Z;
  lastSignature : option string
}.

Inductive event :=
  | rpc_getTransaction (sig : string)
  | telegram_sendMessage (chatId : Z) (t : transfer) (sig : signature_info)
  | fs_writeFile (data : monitor).

Definition saveUserData : action monitor event := λ m,
  (m, [fs_writeFile m]).

Definition isValidSolanaAddress (address : string) : bool :=
  publicKey_ok address
  && (32 <=? String.length address)%nat && (String.length address <=? 44)%nat.

Definition set_lastSignature (s : option string) (m : monitor) : monitor :=
  {| userSettings := userSettings m;
     subscribedUsers := subscribedUsers m;
     lastSignature := s |}.

Definition set_userSettings (u : gmap Z settings) (m : monitor) : monitor :=
  {| userSettings := u;
     subscribedUsers := subscribedUsers m;
     lastSignature := lastSignature m |}.

(** [this.subscribedUsers.delete(chatId); this.userSettings.delete(chatId)] *)
Definition forget (chatId : Z) (m : monitor) : monitor :=
  {| userSettings := delete chatId (userSettings m);
     subscribedUsers := set_delete chatId (subscribedUsers m);
     lastSignature := lastSignature m |}.

(** One turn of the loop of [notifyAllUsers].  The settings object is the
    one stored in the map when there is one, so what the filter block does
    to it stays in the map; the fallback literal is thrown away. *)
Definition notify_user (t : transfer) (signatureInfo : signature_info)
    (chatId : Z) : action monitor event := λ m,
  let stored := userSettings m !! chatId in
  let '(continue, settings') := filters t (default fallback stored) in
  let m1 :=
    match stored with
    | Some _ => set_userSettings (<[chatId := settings']> (userSettings m)) m
    | None => m
    end in
  if continue then (m1, [])
  else
    let sent := telegram_sendMessage chatId t signatureInfo in
    if blocked_the_bot (sendMessage chatId signatureInfo)
    then (call sent ;; modify (forget chatId) ;; saveUserData) m1
    else call sent m1.

(** The loop runs over the live [Set]; the only change to the set during
    the loop is the removal of the element already reached, so it visits
    the elements the set had at the start, in order. *)
Definition notifyAllUsers (t : transfer) (signatureInfo : signature_info)
  : action monitor event := λ m,
  for_of (subscribedUsers m) (notify_user t signatureInfo) m.

(** A transaction that is missing, has no [meta], or whose request throws,
    ends the function: [None]. *)
Definition processTransaction (signatureInfo : signature_info)
  : action monitor event :=
  call (rpc_getTransaction (signature signatureInfo)) ;;
  match getTransaction (signature signatureInfo) with
  | None => skip
  | Some tx =>
      for_of (parseSOLTransfers tx monitoredWallet)
             (λ t, notifyAllUsers t signatureInfo)
  end.

(** [signatures] is the answer of [getSignaturesForAddress(_, {limit: 10})]. *)
Definition checkForNewTransactions (signatures : list signature_info)
  : action monitor event := λ m,
  match signatures with
  | [] => skip m
  | newest :: _ =>
      let new := newSignatures (lastSignature m) signatures in
      if (0 <? length new)%nat then
        (modify (set_lastSignature (Some (signature newest))) ;;
         saveUserData ;;
         for_of (rev new) processTransaction) m
      else skip m
  end.

(** [initialSignatures] is the answer of
    [getSignaturesForAddress(_, {limit: 1})], asked only when the cursor is
    falsy. *)
Definition startMonitoring (initialSignatures : list signature_info)
  : action monitor event := λ m,
  if String.eqb monitoredWallet "" then skip m
  else if negb (isValidSolanaAddress monitoredWallet) then skip m
  else if falsy (lastSignature m) then
    (modify (set_lastSignature (signature <$> head initialSignatures)) ;;
     saveUserData) m
  else skip m.

End Monitor.

Arguments userSettings {_} _.
Arguments subscribedUsers {_} _.
Arguments lastSignature {_} _.
Arguments rpc_getTransaction {_} _.
Arguments telegram_sendMessage {_} _ _ _.
Arguments fs_writeFile {_} _.

(** ** index.js: minimum amount and blacklist *)
Module Index.

Record settings := {
  minAmount : number;
  blacklist : list string
}.

(** [{ minAmount: 0, blacklist: [] }] *)
Definition fallback : settings := {| minAmount := zero; blacklist := [] |}.

(** The two tests of [notifyAllUsers]; neither writes to the object. *)
Definition filters (t : transfer) (s : settings) : bool * settings :=
  if lt (amount t) (minAmount s) then (true, s)
  else if bool_decide (from t ∈ blacklist s) then (true, s)
  else (false, s).

Abbreviation monitor := (monitor settings).
Abbreviation event := (event settings).

Definition notifyAllUsers := notifyAllUsers settings fallback filters.
Definition processTransaction := processTransaction settings fallback filters.
Definition checkForNewTransactions := checkForNewTransactions settings fallback filters.
Definition startMonitoring := startMonitoring settings.

(** *** The command handlers of [setupCommands]

    [hears] lists the chats for which the [set_min_amount] callback has
    registered its listener with [this.bot.hears(/^\d*\.?\d+$/, ...)], oldest
    first.  A listener is never taken off.  Telegraf runs the listeners of
    a text in registration order and stops at the first whose pattern
    matches, unless that one calls [next]; these never do.  So a number
    reaches the oldest listener only. *)
Record bot := {
  state : monitor;
  hears : list Z
}.

Definition lift (a : action monitor event) : action bot event := λ b,
  let '(m, es) := a (state b) in
  ({| state := m; hears := hears b |}, es).

Definition set_settings (chatId : Z) (s : settings) (m : monitor) : monitor :=
  set_userSettings settings (<[chatId := s]> (userSettings m)) m.

Definition add_subscriber (chatId : Z) (m : monitor) : monitor :=
  {| userSettings := userSettings m;
     subscribedUsers := set_add chatId (subscribedUsers m);
     lastSignature := lastSignature m |}.

(** [this.bot.start] *)
Definition on_start (chatId : Z) : action bot event :=
  lift (modify (add_subscriber chatId) ;; saveUserData settings).

(** [this.bot.command('unsubscribe', ...)] *)
Definition on_unsubscribe (chatId : Z) : action bot event :=
  lift (modify (forget settings chatId) ;; saveUserData settings).

(** [this.bot.action('set_min_amount', ...)]: one more listener. *)
Definition on_set_min_amount (chatId : Z) : action bot event := λ b,
  ({| state := state b; hears := hears b ++ [chatId] |}, []).

(** The body of a listener registered for [owner], run on a number sent
    from [chatId]. *)
Definition min_amount_listener (owner chatId : Z) (amount : number)
  : action monitor event := λ m,
  if decide (chatId = owner) then
    let s := default fallback (userSettings m !! owner) in
    let s := {| minAmount := amount; blacklist := blacklist s |} in
    (modify (set_settings owner s) ;; saveUserData settings) m
  else skip m.

(** A text that is a number ([parseFloat] of it is [amount]) and not an
    address. *)
Definition on_number (chatId : Z) (amount : number) : action bot event := λ b,
  match hears b with
  | [] => skip b
  | owner :: _ => lift (min_amount_listener owner chatId amount) b
  end.

(** A text of 32 to 44 base58 characters. *)
Definition on_address (publicKey_ok : string → bool) (chatId : Z) (address : string)
  : action bot event :=
  lift (λ m,
    if negb (bool_decide (chatId ∈ subscribedUsers m)) then skip m
    else if isValidSolanaAddress publicKey_ok address then
      let s := default fallback (userSettings m !! chatId) in
      if negb (bool_decide (address ∈ blacklist s)) then
        let s := {| minAmount := minAmount s; blacklist := blacklist s ++ [address] |} in
        (modify (set_settings chatId s) ;; saveUserData settings) m
      else skip m
    else skip m).

(** The text [remove <number>]; [index] is the number minus one. *)
Definition on_remove (chatId : Z) (number_ : Z) : action bot event :=
  lift (λ m,
    if negb (bool_decide (chatId ∈ subscribedUsers m)) then skip m
    else
      let index := (number_ - 1)%Z in
      let s := default fallback (userSettings m !! chatId) in
      if (0 <=? index)%Z && (index <? Z.of_nat (length (blacklist s)))%Z then
        let s := {| minAmount := minAmount s;
                    blacklist := delete (Z.to_nat index) (blacklist s) |} in
        (modify (set_settings chatId s) ;; saveUserData settings) m
      else skip m).

(** What can happen to a running bot.  [/settings], [/help] and the
    callbacks [manage_blacklist] and [open_settings] only answer. *)
Inductive input :=
  | start (chatId : Z)
  | unsubscribe (chatId : Z)
  | settings_or_help (chatId : Z)
  | set_min_amount (chatId : Z)
  | number (chatId : Z) (amount : number)
  | address (publicKey_ok : string → bool) (chatId : Z) (text : string)
  | remove (chatId : Z) (number_ : Z)
  | dispatch (sendMessage : Z → signature_info → send_outcome)
      (t : transfer) (signatureInfo : signature_info)
  | tick (getTransaction : string → option transaction)
      (sendMessage : Z → signature_info → send_outcome)
      (monitoredWallet : string) (signatures : list signature_info).

Definition handle (i : input) : action bot event :=
  match i with
  | start c => on_start c
  | unsubscribe c => on_unsubscribe c
  | settings_or_help _ => skip
  | set_min_amount c => on_set_min_amount c
  | number c a => on_number c a
  | address ok c a => on_address ok c a
  | remove c n => on_remove c n
  | dispatch send t sig => lift (notifyAllUsers send t sig)
  | tick rpc send wallet sigs => lift (checkForNewTransactions rpc send wallet sigs)
  end.

(** The constructor's fields. *)
Definition fresh : bot :=
  {| state := {| userSettings := ∅; subscribedUsers := []; lastSignature := None |};
     hears := [] |}.

Definition run (inputs : list input) : action bot event := for_of inputs handle.

Definition reachable (b : bot) : Prop := ∃ inputs, (run inputs fresh).1 = b.

(** Every key of the settings map is a subscriber. *)
Definition settings_of_subscribers (m : monitor) : Prop :=
  ∀ chatId, is_Some (userSettings m !! chatId) → chatId ∈ subscribedUsers m.

End Index.

(** ** The fixed-amounts file: a list of amounts and a blacklist *)
Module FixedAmounts.

Record settings := {
  amount : list number;
  blacklist : list string
}.

(** [{ amount: [], blacklist: [] }] *)
Definition fallback : settings := {| amount := []; blacklist := [] |}.

(** The values that the first test handles. *)
Inductive value :=
  | num (n : nat)
  | boolean (b : bool).

Definition truthy (v : value) : bool :=
  match v with
  | num n => negb (n =? 0)%nat
  | boolean b => b
  end.

(** [l && r]: [l] when it is falsy, [r] otherwise. *)
Definition js_and (l r : value) : value := if truthy l then r else l.

(** The length that an assignment to [length] sets. *)
Definition to_length (v : value) : nat :=
  match v with
  | num n => n
  | boolean b => if b then 1 else 0
  end.

(** The filter block.  [=] binds weaker than [&&], so the first test is the
    assignment

      [settings.amount.length = (0 && !settings.amount.includes(transfer.amount))]

    whose value is the value assigned.  Setting [length] cuts the array at
    that length. *)
Definition filters (t : transfer) (s : settings) : bool * settings :=
  let assigned :=
    js_and (num 0) (boolean (negb (includes (amount s) (Transfer.amount t)))) in
  let s := {| amount := take (to_length assigned) (amount s);
              blacklist := blacklist s |} in
  if truthy assigned then (true, s)
  else if bool_decide (from t ∈ blacklist s) then (true, s)
  else (false, s).

Abbreviation monitor := (monitor settings).
Abbreviation event := (event settings).

Definition notifyAllUsers := notifyAllUsers settings fallback filters.
Definition processTransaction := processTransaction settings fallback filters.
Definition checkForNewTransactions := checkForNewTransactions settings fallback filters.
Definition startMonitoring := startMonitoring settings.

End FixedAmounts.

(** ** The hardcoded file: no settings, three fixed amounts *)
Module Hardcoded.

Record monitor := {
  subscribedUsers : list Z;
  lastSignature : option string
}.

Inductive event :=
  | rpc_getTransaction (sig : string)
  | telegram_sendMessage (chatId : Z) (t : transfer) (sig : signature_info)
  | fs_writeFile (data : monitor).

(** [[0.1, 0.15, 0.3]] *)
Definition fixedSolAmounts : list number :=
  [decimal 1 10; decimal 15 100; decimal 3 10].

Section Env.
Variable getTransaction : string → option transaction.
Variable sendMessage : Z → signature_info → send_outcome.
Variable monitoredWallet : string.

Definition saveUserData : action monitor event := λ m,
  (m, [fs_writeFile m]).

Definition set_lastSignature (s : option string) (m : monitor) : monitor :=
  {| subscribedUsers := subscribedUsers m; lastSignature := s |}.

Definition forget (chatId : Z) (m : monitor) : monitor :=
  {| subscribedUsers := set_delete chatId (subscribedUsers m);
     lastSignature := lastSignature m |}.

Definition notify_user (t : transfer) (signatureInfo : signature_info)
    (chatId : Z) : action monitor event :=
  let sent := telegram_sendMessage chatId t signatureInfo in
  if blocked_the_bot (sendMessage chatId signatureInfo)
  then (call sent ;; modify (forget chatId) ;; saveUserData)
  else call sent.

Definition notifyAllUsers (t : transfer) (signatureInfo : signature_info)
  : action monitor event := λ m,
  for_of (subscribedUsers m) (notify_user t signatureInfo) m.

Definition processTransaction (signatureInfo : signature_info)
  : action monitor event :=
  call (rpc_getTransaction (signature signatureInfo)) ;;
  match getTransaction (signature signatureInfo) with
  | None => skip
  | Some tx =>
      for_of (parseSOLTransfers tx monitoredWallet)
             (λ t, if includes fixedSolAmounts (amount t)
                   then notifyAllUsers t signatureInfo
                   else skip)
  end.

(** Here the cursor moves inside the loop, after each transaction. *)
Definition checkForNewTransactions (signatures : list signature_info)
  : action monitor event := λ m,
  match signatures with
  | [] => skip m
  | _ :: _ =>
      let new := newSignatures (lastSignature m) signatures in
      if (0 <? length new)%nat then
        for_of (rev new)
          (λ sig, processTransaction sig ;;
                  modify (set_lastSignature (Some (signature sig))) ;;
                  saveUserData) m
      else skip m
  end.

End Env.

End Hardcoded.

(** ** Statements of the specification and sample inputs *)

(** The counterparty of an incoming transfer in the words of the
    specification: an address other than the monitored one whose balance
    fell, by an amount within 0.001 of the monitored rise. *)
Definition fell_within_tolerance (tx : transaction) (targetIndex : nat)
    (balanceChange : number) (i : nat) : bool :=
  negb (Nat.eqb i targetIndex)
  && lt (at_index (postBalances tx) i) (at_index (preBalances tx) i)
  && lt (abs (sub (drop_ tx i) balanceChange)) lit_0_001.

(** A payer sends 0.0003 SOL to the wallet, 0.0002 SOL to another account and
    1 SOL to a third one, and pays a fee of 5000 lamports. *)
Definition tx_three_recipients : transaction :=
  {| preBalances := [2000000000; 1000000; 0; 0]%Z;
     postBalances := [999495000; 1200000; 1000000000; 300000]%Z;
     accountKeys := ["Payer"; "Other"; "Third"; "Wallet"] |}.

(** The scenario of the specification: the wallet gains 0.50 SOL and the one
    other account loses 0.502 SOL, in either order of the keys. *)
Definition tx_half_sol : transaction :=
  {| preBalances := [0; 1000000000]%Z;
     postBalances := [500000000; 498000000]%Z;
     accountKeys := ["Wallet"; "Sender"] |}.

Definition tx_half_sol_sender_first : transaction :=
  {| preBalances := [1000000000; 0]%Z;
     postBalances := [498000000; 500000000]%Z;
     accountKeys := ["Sender"; "Wallet"] |}.

(** The same with a loss of 0.5005 SOL. *)
Definition tx_half_sol_small_fee : transaction :=
  {| preBalances := [0; 1000000000]%Z;
     postBalances := [500000000; 499500000]%Z;
     accountKeys := ["Wallet"; "Sender"] |}.


(** The diff in the words of the specification: collect the ids of the
    newest-first list until the cursor id is found or the list is exhausted,
    then reverse what was collected. *)
Fixpoint collect_until (cursor : string) (ids : list signature_info)
  : list signature_info :=
  match ids with
  | [] => []
  | id :: rest =>
      if decide (signature id = cursor) then []
      else id :: collect_until cursor rest
  end.

Definition diff_spec (cursor : string) (ids : list signature_info)
  : list signature_info :=
  rev (collect_until cursor ids).

(** What a run shows of one kind of call: the transactions asked of the RPC
    node (each is an attempt to process that id), the alerts sent to a chat,
    and the cursors written to the file. *)
Definition fetched {settings} (es : list (event settings)) : list string :=
  omap (λ e, match e with rpc_getTransaction s => Some s | _ => None end) es.

Definition alerts_to {settings} (chatId : Z) (es : list (event settings))
  : list (transfer * signature_info) :=
  omap (λ e, match e with
             | telegram_sendMessage c t sig =>
                 if decide (c = chatId) then Some (t, sig) else None
             | _ => None
             end) es.

(** Sample environments. *)
Definition sig_ (id : string) : signature_info :=
  {| signature := id; blockTime := 0 |}.

Definition no_transaction : string → option transaction := λ _, None.

Definition always_delivered : Z → signature_info → send_outcome :=
  λ _ _, delivered.

Definition any_key : string → bool := λ _, true.

Definition wallet_address : string := "7xKXtg2CW87d97TXJSDpbD5jBkheTqA83TZRuJosgAsU".

Definition three_ids : list signature_info := [sig_ "S3"; sig_ "S2"; sig_ "S1"].
Definition five_to_three : list signature_info := [sig_ "S5"; sig_ "S4"; sig_ "S3"].

(** A monitor of [index.js] with no subscriber and the given cursor. *)
Definition idle (cursor : option string) : Index.monitor :=
  {| userSettings := ∅; subscribedUsers := []; lastSignature := cursor |}.

(** One turn of the loop of [notifyAllUsers], in parts: the object after the
    filter block, and whether the block lets the alert through. *)
Definition after_filters {settings} (filters : transfer → settings → bool * settings)
    (t : transfer) (chatId : Z) (m : monitor settings) : monitor settings :=
  match userSettings m !! chatId with
  | Some s =>
      set_userSettings settings (<[chatId := (filters t s).2]> (userSettings m)) m
  | None => m
  end.

Definition passes {settings} (fallback : settings)
    (filters : transfer → settings → bool * settings)
    (t : transfer) (chatId : Z) (m : monitor settings) : bool :=
  negb (filters t (default fallback (userSettings m !! chatId))).1.

(** The wallet receives 0.3 SOL from one sender. *)
Definition tx_deposit : transaction :=
  {| preBalances := [1000000000; 0]%Z;
     postBalances := [699995000; 300000000]%Z;
     accountKeys := ["Sender"; wallet_address] |}.

Definition deposit : transfer :=
  {| from := "Sender"; to := wallet_address;
     amount := decimal 3 10; type := incoming |}.

(** An RPC node that knows one transaction. *)
Definition only (id : string) (tx : transaction) : string → option transaction :=
  λ s, if String.eqb s id then Some tx else None.

(** A monitor of [index.js] with chat 1 subscribed, without settings. *)
Definition one_subscriber (cursor : option string) : Index.monitor :=
  {| userSettings := ∅; subscribedUsers := [1%Z]; lastSignature := cursor |}.

Definition hardcoded_idle (cursor : option string) : Hardcoded.monitor :=
  {| Hardcoded.subscribedUsers := []; Hardcoded.lastSignature := cursor |}.

Definition fixed_idle (cursor : option string) : FixedAmounts.monitor :=
  {| userSettings := ∅; subscribedUsers := []; lastSignature := cursor |}.

(** A chat that is neither subscribed nor in the settings map. *)
Definition pruned {settings} (chatId : Z) (m : monitor settings) : Prop :=
  (chatId ∉ subscribedUsers m) ∧ userSettings m !! chatId = None.

(** A notifier that differs from [sendMessage] for one chat only, to which it
    delivers. *)
Definition spare (chatId : Z) (sendMessage : Z → signature_info → send_outcome)
  : Z → signature_info → send_outcome :=
  λ c sig, if decide (c = chatId) then delivered else sendMessage c sig.

(** Two runs that show the same for a chat: the same alerts, the same
    membership, the same settings. *)
Definition same_for {settings} (k : Z)
    (r r' : monitor settings * list (event settings)) : Prop :=
  alerts_to k r.2 = alerts_to k r'.2
  ∧ (k ∈ subscribedUsers r.1 ↔ k ∈ subscribedUsers r'.1)
  ∧ userSettings r.1 !! k = userSettings r'.1 !! k.

(** The permanent failure of the delivery to [chatId] in the run [r] of the
    loop of [notifyAllUsers], whose turns are [step], from the monitor [m].

    The chat is gone from the set and from the map when the run ends.  The
    file is written right after the failed delivery, and the object written
    is the whole monitor as it stands then: what the turns of the chats in
    [front] of [chatId] made of [m], with [chatId] taken out of the set and
    out of the map.  So it holds the cursor of [m] and, for every chat
    [behind], the membership and the settings of [m].  The turns of the
    chats behind go on from that very object.  And the run shows every other
    chat what the run [r'] shows it, in which the delivery to [chatId]
    succeeds. *)
Definition prunes_alone {settings}
    (step : Z → action (monitor settings) (event settings))
    (chatId : Z) (t : transfer) (signatureInfo : signature_info)
    (m : monitor settings)
    (r r' : monitor settings * list (event settings)) : Prop :=
  pruned chatId r.1
  ∧ (∃ front behind,
       subscribedUsers m = front ++ chatId :: behind
       ∧ let reached := for_of front step m in
         let d := forget settings chatId reached.1 in
         let rest := for_of behind step d in
         r = (rest.1,
              reached.2 ++ telegram_sendMessage chatId t signatureInfo
                        :: fs_writeFile d :: rest.2)
         ∧ pruned chatId d
         ∧ lastSignature d = lastSignature m
         ∧ ∀ k, k ∈ behind →
                k ∈ subscribedUsers d
                ∧ userSettings d !! k = userSettings m !! k)
  ∧ ∀ k, k ≠ chatId → same_for k r r'.

(** Chat 1 is subscribed to the fixed-amounts bot and its list of accepted
    amounts is empty. *)
Definition empty_amounts : FixedAmounts.monitor :=
  {| userSettings :=
       {[ 1%Z := {| FixedAmounts.amount := []; FixedAmounts.blacklist := [] |} ]};
     subscribedUsers := [1%Z];
     lastSignature := Some "S3" |}.

(** The wallet pays 0.3 SOL to a receiver. *)
Definition payout : transfer :=
  {| from := wallet_address; to := "Receiver";
     amount := decimal 3 10; type := outgoing |}.

(** Chat 1 is subscribed with one address in its blacklist; chat 2 is
    subscribed without settings. *)
Definition blacklisting (a : string) : Index.monitor :=
  {| userSettings :=
       {[ 1%Z := {| Index.minAmount := zero; Index.blacklist := [a] |} ]};
     subscribedUsers := [1%Z; 2%Z];
     lastSignature := Some "S3" |}.

Definition fixed_blacklisting (a : string) : FixedAmounts.monitor :=
  {| userSettings :=
       {[ 1%Z := {| FixedAmounts.amount := [decimal 3 10];
                    FixedAmounts.blacklist := [a] |} ]};
     subscribedUsers := [1%Z; 2%Z];
     lastSignature := Some "S3" |}.

(** Three subscribers, each with settings that let a deposit of 0.3 SOL
    from "Sender" through. *)
Definition three_chats : Index.monitor :=
  {| userSettings :=
       {[ 1%Z := {| Index.minAmount := zero; Index.blacklist := ["Other"] |};
          2%Z := {| Index.minAmount := decimal 1 10; Index.blacklist := [] |};
          3%Z := {| Index.minAmount := decimal 2 10; Index.blacklist := [] |} ]};
     subscribedUsers := [1%Z; 2%Z; 3%Z];
     lastSignature := Some "S3" |}.

Definition fixed_three_chats : FixedAmounts.monitor :=
  {| userSettings :=
       {[ 1%Z := {| FixedAmounts.amount := [decimal 3 10];
                    FixedAmounts.blacklist := ["Other"] |};
          2%Z := {| FixedAmounts.amount := []; FixedAmounts.blacklist := [] |};
          3%Z := {| FixedAmounts.amount := [decimal 1 10];
                    FixedAmounts.blacklist := [] |} ]};
     subscribedUsers := [1%Z; 2%Z; 3%Z];
     lastSignature := Some "S3" |}.

(** Telegram answers 403 for one chat and delivers to the others. *)
Definition blocked_by (chatId : Z) : Z → signature_info → send_outcome :=
  λ c _, if decide (c = chatId) then thrown (Some 403%Z) else delivered.

(** A user subscribes, opens the minimum-amount prompt, unsubscribes, and
    then sends the number 5. *)
Definition leave_then_number : list Index.input :=
  [Index.start 1; Index.set_min_amount 1; Index.unsubscribe 1;
   Index.number 1 (of_int 5)].

(** What a run shows of the cursor: the attempt to process an id (the request
    for its transaction), the cursor written to the file, or another call. *)
Inductive seen :=
  | attempted (id : string)
  | cursor_saved (cursor : option string)
  | other_call.

Definition observe {settings} (e : event settings) : seen :=
  match e with
  | rpc_getTransaction id => attempted id
  | fs_writeFile d => cursor_saved (lastSignature d)
  | telegram_sendMessage _ _ _ => other_call
  end.

Definition hardcoded_observe (e : Hardcoded.event) : seen :=
  match e with
  | Hardcoded.rpc_getTransaction id => attempted id
  | Hardcoded.fs_writeFile d => cursor_saved (Hardcoded.lastSignature d)
  | Hardcoded.telegram_sendMessage _ _ _ => other_call
  end.

(** The cursor never points past an id whose processing was not attempted:
    every cursor written is the cursor of the start or an id attempted
    before.  [allowed] holds those. *)
Fixpoint cursor_behind (allowed : list (option string)) (run : list seen) : bool :=
  match run with
  | [] => true
  | attempted id :: rest => cursor_behind (Some id :: allowed) rest
  | cursor_saved c :: rest => bool_decide (c ∈ allowed) && cursor_behind allowed rest
  | other_call :: rest => cursor_behind allowed rest
  end.

(** A part of a run that attempts nothing and writes no cursor but [c]. *)
Definition quiet (c : option string) (run : list seen) : Prop :=
  Forall (λ o, o = other_call ∨ o = cursor_saved c) run.

(** An action of the hardcoded bot that keeps the cursor and whose calls are
    quiet. *)
Definition keeps_cursor (a : action Hardcoded.monitor Hardcoded.event) : Prop :=
  ∀ m, Hardcoded.lastSignature (a m).1 = Hardcoded.lastSignature m
       ∧ quiet (Hardcoded.lastSignature m) (hardcoded_observe <$> (a m).2).


(** * More of the code *)

From Stdlib Require Ascii.
Import Ascii.AsciiSyntax.
Delimit Scope char_scope with char.

(** ** [loadUserData] and the object in [user_data.json]

    [saveUserData] writes the object [{userSettings, subscribedUsers,
    lastSignature}] with [JSON.stringify]; [loadUserData] reads it back with
    [JSON.parse].  [parsed] is the object that [JSON.parse] returns; each of
    its fields may be missing. *)
Section Storage.
Context {settings : Type}.

Record parsed := {
  parsed_userSettings : option (list (Z * settings));
  parsed_subscribedUsers : option (list Z);
  parsed_lastSignature : option string
}.

(** [new Map(entries)]: a later entry replaces an earlier one with its key. *)
Definition map_of_entries (entries : list (Z * settings)) : gmap Z settings :=
  foldl (λ m kv, <[kv.1 := kv.2]> m) ∅ entries.

(** [new Set(array)] *)
Definition set_of_array (a : list Z) : list Z :=
  foldl (λ s x, set_add x s) [] a.

(** [x || null] on a string that may be missing. *)
Definition or_null (x : option string) : option string :=
  match x with
  | None => None
  | Some s => if String.eqb s "" then None else Some s
  end.

(** The object that [saveUserData] builds. *)
Definition data_of (m : monitor settings) : parsed :=
  {| parsed_userSettings := Some (map_to_list (userSettings m));
     parsed_subscribedUsers := Some (subscribedUsers m);
     parsed_lastSignature := lastSignature m |}.

(** [file] is [None] when the file is missing or is not JSON: the [catch]
    leaves the fields as they are. *)
Definition loadUserData (file : option parsed) (m : monitor settings)
  : monitor settings :=
  match file with
  | None => m
  | Some p =>
      {| userSettings := map_of_entries (default [] (parsed_userSettings p));
         subscribedUsers := set_of_array (default [] (parsed_subscribedUsers p));
         lastSignature := or_null (parsed_lastSignature p) |}
  end.

End Storage.
Arguments parsed : clear implicits.

(** ** The fixed-amounts file: helpers and amount handlers *)
Module Amounts.

(** The default [eps = 1e-9]. *)
Definition eps : number := decimal 1 1000000000.

(** [floatEq(a, b)]: every call leaves [eps] at its default. *)
Definition floatEq (a b : number) : bool := lt (abs (sub a b)) eps.

Definition isNaN (x : number) : bool :=
  match x with
  | S754_nan => true
  | _ => false
  end.

(** [array.findIndex(p)]; [None] is [-1]. *)
Fixpoint findIndex (p : number → bool) (l : list number) : option nat :=
  match l with
  | [] => None
  | a :: rest => if p a then Some 0%nat else S <$> findIndex p rest
  end.

Definition set_settings (chatId : Z) (s : FixedAmounts.settings)
    (m : FixedAmounts.monitor) : FixedAmounts.monitor :=
  set_userSettings FixedAmounts.settings (<[chatId := s]> (userSettings m)) m.

(** The listener that the [amount_add] callback registers for [chatId], run
    on a text from [msgChat] whose [parseFloat] is [newVal]. *)
Definition amount_add_handler (chatId msgChat : Z) (newVal : number)
  : action FixedAmounts.monitor FixedAmounts.event := λ m,
  if negb (Z.eqb msgChat chatId) then skip m
  else if isNaN newVal then skip m
  else
    let s := default FixedAmounts.fallback (userSettings m !! chatId) in
    let s :=
      if negb (existsb (λ a, floatEq a newVal) (FixedAmounts.amount s))
      then {| FixedAmounts.amount := FixedAmounts.amount s ++ [newVal];
              FixedAmounts.blacklist := FixedAmounts.blacklist s |}
      else s in
    (modify (set_settings chatId s) ;; saveUserData FixedAmounts.settings) m.

(** The callback [amount_delete_<encoded>]; [value] is
    [decodeAmount(encoded)]. *)
Definition amount_delete (chatId : Z) (value : number)
  : action FixedAmounts.monitor FixedAmounts.event := λ m,
  let s := default FixedAmounts.fallback (userSettings m !! chatId) in
  let s := {| FixedAmounts.amount :=
                List.filter (λ a, negb (floatEq a value)) (FixedAmounts.amount s);
              FixedAmounts.blacklist := FixedAmounts.blacklist s |} in
  (modify (set_settings chatId s) ;; saveUserData FixedAmounts.settings) m.

(** The listener that the [amount_edit_<encoded>] callback registers;
    [oldValue] is [decodeAmount(encoded)]. *)
Definition amount_edit_handler (chatId msgChat : Z) (oldValue newValue : number)
  : action FixedAmounts.monitor FixedAmounts.event := λ m,
  if negb (Z.eqb msgChat chatId) then skip m
  else if isNaN newValue then skip m
  else
    let s := default FixedAmounts.fallback (userSettings m !! chatId) in
    let amounts :=
      match findIndex (λ a, floatEq a oldValue) (FixedAmounts.amount s) with
      | Some idx => <[idx := newValue]> (FixedAmounts.amount s)
      | None => FixedAmounts.amount s ++ [newValue]
      end in
    let s := {| FixedAmounts.amount := amounts;
                FixedAmounts.blacklist := FixedAmounts.blacklist s |} in
    (modify (set_settings chatId s) ;; saveUserData FixedAmounts.settings) m.

(** The class [[_*\[\]()~`>#+\-=|{}.!]] of [escapeMarkdownV2]. *)
Definition special (x : Ascii.ascii) : bool :=
  existsb (Ascii.eqb x)
    (String.list_ascii_of_string "_*[]()~`>#+-=|{}.!").

(** [escapeMarkdownV2], after [text.toString()]: a backslash before each
    special character. *)
Fixpoint escapeMarkdownV2 (text : string) : string :=
  match text with
  | EmptyString => EmptyString
  | String x rest =>
      if special x then String "\"%char (String x (escapeMarkdownV2 rest))
      else String x (escapeMarkdownV2 rest)
  end.

End Amounts.

(** ** What the added properties speak of *)

(** The chats an alert was sent to, in order. *)
Definition alerted {settings} (es : list (event settings)) : list Z :=
  omap (λ e, match e with
             | telegram_sendMessage c _ _ => Some c
             | _ => None
             end) es.

(** The objects written to the file, in order. *)
Definition written {settings} (es : list (event settings))
  : list (monitor settings) :=
  omap (λ e, match e with fs_writeFile d => Some d | _ => None end) es.

Definition hardcoded_alerts (es : list Hardcoded.event)
  : list (Z * transfer) :=
  omap (λ e, match e with
             | Hardcoded.telegram_sendMessage c t _ => Some (c, t)
             | _ => None
             end) es.

(** The settings that [index.js] works with for a chat. *)
Definition index_settings (chatId : Z) (m : Index.monitor) : Index.settings :=
  default Index.fallback (userSettings m !! chatId).

(** The two tests of [index.js] with the result the other way round. *)
Definition index_accepts (t : transfer) (s : Index.settings) : bool :=
  negb (lt (amount t) (Index.minAmount s))
  && negb (bool_decide (from t ∈ Index.blacklist s)).

Definition fixed_settings (chatId : Z) (m : FixedAmounts.monitor)
  : FixedAmounts.settings :=
  default FixedAmounts.fallback (userSettings m !! chatId).

(** Every special character of [text] is right after a backslash;
    [after_backslash] tells whether the text itself is. *)
Fixpoint escaped (after_backslash : bool) (text : string) : bool :=
  match text with
  | EmptyString => true
  | String x rest =>
      (negb (Amounts.special x) || after_backslash)
      && escaped (Ascii.eqb x "\"%char) rest
  end.

Fixpoint count_special (text : string) : nat :=
  match text with
  | EmptyString => 0
  | String x rest => (if Amounts.special x then 1 else 0) + count_special rest
  end.

(** Sample transactions for the added properties: the wallet is not among
    the keys; the balance arrays are shorter than the key list; the wallet
    pays 0.3 SOL to one receiver. *)
Definition tx_without_wallet : transaction :=
  {| preBalances := [1000000000; 0]%Z;
     postBalances := [699995000; 300000000]%Z;
     accountKeys := ["Sender"; "Receiver"] |}.

Definition tx_short_balances : transaction :=
  {| preBalances := [1000000000]%Z;
     postBalances := [699995000]%Z;
     accountKeys := ["Sender"; wallet_address] |}.

Definition tx_payout : transaction :=
  {| preBalances := [1000000000; 0]%Z;
     postBalances := [699995000; 300000000]%Z;
     accountKeys := [wallet_address; "Receiver"] |}.

(** What [tx_payout] shows of the wallet: it lost the 0.3 SOL and the fee. *)
Definition payout_seen : transfer :=
  {| from := wallet_address; to := "Receiver";
     amount := decimal 300005 1000000; type := outgoing |}.

Definition tx_idle_wallet : transaction :=
  {| preBalances := [1000000000; 5; 0]%Z;
     postBalances := [699995000; 5; 300000000]%Z;
     accountKeys := ["Sender"; wallet_address; "Receiver"] |}.

(** The test that picks the counterparty, by direction. *)
Definition counterparty_test (tx : transaction) (targetIndex : nat)
    (d : transfer_type) (i : nat) : bool :=
  match d with
  | incoming => sender_test tx targetIndex (rise tx targetIndex) i
  | outgoing => receiver_test tx targetIndex (rise tx targetIndex) i
  end.

(** No blacklist of [index.js] holds an address twice. *)
Definition blacklists_NoDup (m : Index.monitor) : Prop :=
  ∀ c s, userSettings m !! c = Some s → NoDup (Index.blacklist s).

(** The bot of [index.js] with [m] as its monitor and no listener. *)
Definition bot_of (m : Index.monitor) : Index.bot :=
  {| Index.state := m; Index.hears := [] |}.

(** A number that is neither NaN nor an infinity. *)
Definition is_finite (x : number) : bool :=
  match x with
  | S754_zero _ | S754_finite _ _ _ => true
  | _ => false
  end.
(** * Properties *)

(** ** The action combinators *)
Section ActionFacts.
Context {St Ev : Type}.
Implicit Types (a b : action St Ev) (m : St).

Lemma andThen_state a b m : ((a ;; b) m).1 = (b (a m).1).1.
Proof. unfold andThen. destruct (a m) as [m1 e1]; simpl. by destruct (b m1). Qed.

Lemma andThen_calls a b m : ((a ;; b) m).2 = (a m).2 ++ (b (a m).1).2.
Proof. unfold andThen. destruct (a m) as [m1 e1]; simpl. by destruct (b m1). Qed.

Lemma for_of_cons {A} (x : A) (l : list A) (body : A → action St Ev) :
  for_of (x :: l) body = (body x ;; for_of l body).
Proof. reflexivity. Qed.

(** A property of the object that every turn keeps is kept by the loop. *)
Lemma for_of_keeps {A} (I : St → Prop) (body : A → action St Ev) (l : list A) m :
  (∀ x m, I m → I (body x m).1) → I m → I (for_of l body m).1.
Proof.
  intros Hbody. revert m. induction l as [|x l IH]; intros m Hm; [done|].
  rewrite for_of_cons, andThen_state. by apply IH, Hbody.
Qed.

(** The calls of a loop, seen through a projection [p] of the calls, when
    each turn shows the same calls whatever the object is. *)
Lemma for_of_calls {A B} (p : list Ev → list B) (f : A → list B)
    (body : A → action St Ev) (l : list A) m :
  p [] = [] → (∀ es es', p (es ++ es') = p es ++ p es') →
  (∀ x m, p (body x m).2 = f x) →
  p (for_of l body m).2 = l ≫= f.
Proof.
  intros Hnil Happ Hbody. revert m. induction l as [|x l IH]; intros m; [done|].
  rewrite for_of_cons, andThen_calls, Happ, Hbody, IH. reflexivity.
Qed.

End ActionFacts.

(** ** Extraction *)

Lemma abs_of_negative (x : number) : lt x zero = true → gt (abs x) zero = true.
Proof. by destruct x as [[]|[]| |[] ? ?]. Qed.

(** [x - x] is [+0], or NaN when [x] is not finite. *)
Lemma sub_self (x : number) : sub x x = zero ∨ sub x x = NaN.
Proof.
  destruct x as [[]|[]| |s m e]; try (by left); try (by right).
  left. unfold sub, SFsub. by rewrite Z.sub_diag.
Qed.

Lemma find_targetIndex_spec (keys : list string) (w : string) (i j : nat) :
  find_targetIndex keys w i = Some j →
  (i ≤ j)%nat ∧ keys !! (j - i)%nat = Some w.
Proof.
  revert i. induction keys as [|k keys IH]; intros i; simpl; [done|].
  destruct (String.eqb_spec k w) as [->|_].
  - intros [= ->]. by rewrite Nat.sub_diag.
  - intros [Hle Hk]%IH. split; [lia|].
    by replace (j - i)%nat with (S (j - S i)) by lia.
Qed.

Section ParseFacts.
Variable tx : transaction.
Variable targetWallet : string.
Variable targetIndex : nat.
Variable balanceChange : number.

(** What the incoming loop returns: nothing when the test fails at every
    index that is left, and otherwise the key at the first index where the
    test holds. *)
Lemma find_sender_first (keys : list string) (i : nat) :
  (find_sender tx targetWallet targetIndex balanceChange keys i = []
   ∧ ∀ j, (j < length keys)%nat → sender_test tx targetIndex balanceChange (i + j) = false)
  ∨ ∃ j k,
      find_sender tx targetWallet targetIndex balanceChange keys i
        = [ {| from := k; to := targetWallet;
               amount := balanceChange; type := incoming |} ]
      ∧ keys !! j = Some k
      ∧ sender_test tx targetIndex balanceChange (i + j) = true
      ∧ ∀ j', (j' < j)%nat → sender_test tx targetIndex balanceChange (i + j') = false.
Proof.
  revert i. induction keys as [|k keys IH]; intros i; simpl.
  { left. split; [done|]. intros j Hj. lia. }
  destruct (sender_test tx targetIndex balanceChange i) eqn:Htest.
  - right. exists 0%nat, k. rewrite Nat.add_0_r. repeat split; try done.
    intros j' Hj'. lia.
  - destruct (IH (S i)) as [[-> Hall]|(j & k' & -> & Hk & Hj & Hbefore)].
    + left. split; [done|]. intros [|j] Hj; [by rewrite Nat.add_0_r|].
      replace (i + S j)%nat with (S i + j)%nat by lia. apply Hall. lia.
    + right. exists (S j), k'. repeat split; try done.
      * by replace (i + S j)%nat with (S i + j)%nat by lia.
      * intros [|j'] Hj'; [by rewrite Nat.add_0_r|].
        replace (i + S j')%nat with (S i + j')%nat by lia. apply Hbefore. lia.
Qed.

Lemma find_receiver_first (keys : list string) (i : nat) :
  (find_receiver tx targetWallet targetIndex balanceChange keys i = []
   ∧ ∀ j, (j < length keys)%nat → receiver_test tx targetIndex balanceChange (i + j) = false)
  ∨ ∃ j k,
      find_receiver tx targetWallet targetIndex balanceChange keys i
        = [ {| from := targetWallet; to := k;
               amount := abs balanceChange; type := outgoing |} ]
      ∧ keys !! j = Some k
      ∧ receiver_test tx targetIndex balanceChange (i + j) = true
      ∧ ∀ j', (j' < j)%nat → receiver_test tx targetIndex balanceChange (i + j') = false.
Proof.
  revert i. induction keys as [|k keys IH]; intros i; simpl.
  { left. split; [done|]. intros j Hj. lia. }
  destruct (receiver_test tx targetIndex balanceChange i) eqn:Htest.
  - right. exists 0%nat, k. rewrite Nat.add_0_r. repeat split; try done.
    intros j' Hj'. lia.
  - destruct (IH (S i)) as [[-> Hall]|(j & k' & -> & Hk & Hj & Hbefore)].
    + left. split; [done|]. intros [|j] Hj; [by rewrite Nat.add_0_r|].
      replace (i + S j)%nat with (S i + j)%nat by lia. apply Hall. lia.
    + right. exists (S j), k'. repeat split; try done.
      * by replace (i + S j)%nat with (S i + j)%nat by lia.
      * intros [|j'] Hj'; [by rewrite Nat.add_0_r|].
        replace (i + S j')%nat with (S i + j')%nat by lia. apply Hbefore. lia.
Qed.

End ParseFacts.

Lemma sender_test_other tx targetIndex balanceChange i :
  sender_test tx targetIndex balanceChange i = true → i ≠ targetIndex.
Proof.
  unfold sender_test. intros [Hne _]%andb_prop ->.
  by rewrite Nat.eqb_refl in Hne.
Qed.

Lemma receiver_test_other tx targetIndex balanceChange i :
  receiver_test tx targetIndex balanceChange i = true → i ≠ targetIndex.
Proof.
  unfold receiver_test. intros [Hne _]%andb_prop ->.
  by rewrite Nat.eqb_refl in Hne.
Qed.

(** A monitored balance that does not move gives no transfer. *)
Lemma parseSOLTransfers_unchanged (tx : transaction) (targetWallet : string)
    (targetIndex : nat) (balance : Z) :
  find_targetIndex (accountKeys tx) targetWallet 0 = Some targetIndex →
  preBalances tx !! targetIndex = Some balance →
  postBalances tx !! targetIndex = Some balance →
  parseSOLTransfers tx targetWallet = [].
Proof.
  intros Hidx Hpre Hpost. unfold parseSOLTransfers. rewrite Hidx. simpl.
  assert (Hzero : gt (rise tx targetIndex) zero = false
                  ∧ lt (rise tx targetIndex) zero = false).
  { unfold rise, at_index. rewrite Hpre, Hpost.
    destruct (sub_self (of_int balance)) as [-> | ->]; by vm_compute. }
  destruct Hzero as [-> ->]. reflexivity.
Qed.

(** C10. For every transaction and every monitored address,
    [parseSOLTransfers] returns no transfer or exactly one; the amount of a
    returned transfer is strictly positive, and its counterparty (the sender
    of an incoming transfer, the receiver of an outgoing one) is the account
    key at an index other than the index of the monitored address. *)
Theorem parseSOLTransfers_at_most_one (tx : transaction) (targetWallet : string) :
  parseSOLTransfers tx targetWallet = []
  ∨ ∃ (t : transfer) (targetIndex i : nat),
      parseSOLTransfers tx targetWallet = [t]
      ∧ gt (amount t) zero = true
      ∧ find_targetIndex (accountKeys tx) targetWallet 0 = Some targetIndex
      ∧ i ≠ targetIndex
      ∧ accountKeys tx !! i = Some (fromTo t).
Proof.
  unfold parseSOLTransfers.
  destruct (find_targetIndex (accountKeys tx) targetWallet 0) as [targetIndex|] eqn:Hidx;
    [|by left].
  simpl. destruct (gt (rise tx targetIndex) zero) eqn:Hup.
  - destruct (find_sender_first tx targetWallet targetIndex (rise tx targetIndex)
                (accountKeys tx) 0) as [[-> _]|(j & k & -> & Hk & Hj & _)]; [by left|].
    right. eexists _, targetIndex, j. repeat split; try done.
    by apply sender_test_other in Hj.
  - destruct (lt (rise tx targetIndex) zero) eqn:Hdown; [|by left].
    destruct (find_receiver_first tx targetWallet targetIndex (rise tx targetIndex)
                (accountKeys tx) 0) as [[-> _]|(j & k & -> & Hk & Hj & _)]; [by left|].
    right. eexists _, targetIndex, j. repeat split; try done.
    + by apply abs_of_negative.
    + by apply receiver_test_other in Hj.
Qed.

(** The incoming loop takes the first index that passes [sender_test]; the
    test does not ask that the balance fell (the outgoing loop does ask that
    the receiver's balance rose). *)
Lemma sender_test_without_fall :
  ∃ tx targetIndex balanceChange i,
    sender_test tx targetIndex balanceChange i = true
    ∧ fell_within_tolerance tx targetIndex balanceChange i = false.
Proof.
  exists {| preBalances := [7; 0]%Z; postBalances := [7; 300000]%Z;
            accountKeys := ["Idle"; "Wallet"] |}, 1%nat,
         (decimal 3 10000), 0%nat.
  by vm_compute.
Qed.

(** C6, on [tx_three_recipients]. The wallet's balance rises by 0.0003 SOL
    and no other address has a balance that fell by an amount within 0.001 of
    that rise, so the specification asks for no event; [parseSOLTransfers] returns an
    incoming transfer from "Other", whose balance rose. *)
Theorem parseSOLTransfers_names_a_recipient :
  parseSOLTransfers tx_three_recipients "Wallet"
    = [ {| from := "Other"; to := "Wallet";
           amount := decimal 3 10000; type := incoming |} ]
  ∧ find_targetIndex (accountKeys tx_three_recipients) "Wallet" 0 = Some 3%nat
  ∧ forallb (λ i, negb (fell_within_tolerance tx_three_recipients 3
                          (rise tx_three_recipients 3) i))
            (seq 0 (length (accountKeys tx_three_recipients))) = true
  ∧ (accountKeys tx_three_recipients !! 1%nat = Some "Other"
     ∧ preBalances tx_three_recipients !! 1%nat = Some 1000000%Z
     ∧ postBalances tx_three_recipients !! 1%nat = Some 1200000%Z).
Proof. by vm_compute. Qed.

(** C7 as stated fails: on the scenario no incoming transfer
    of 0.50 SOL is returned. *)
Lemma half_sol_scenario_no_transfer :
  ¬ ∃ t : transfer,
      parseSOLTransfers tx_half_sol "Wallet" = [t]
      ∧ type t = incoming ∧ amount t = decimal 1 2.
Proof. intros (t & Ht & _). vm_compute in Ht. discriminate. Qed.

(** C7, amended. With a rise of 0.50 SOL and one counterparty whose balance
    falls by 0.502 SOL, the two amounts differ by 0.002, which is not below
    the tolerance 0.001, and extraction returns no event; when the
    counterparty's balance falls by 0.5005 SOL, extraction returns exactly one
    incoming transfer, of amount 0.50, from that counterparty. *)
Theorem tolerance_scenario :
  parseSOLTransfers tx_half_sol "Wallet" = []
  ∧ parseSOLTransfers tx_half_sol_sender_first "Wallet" = []
  ∧ lt (abs (sub (drop_ tx_half_sol 1) (rise tx_half_sol 0))) lit_0_001 = false
  ∧ parseSOLTransfers tx_half_sol_small_fee "Wallet"
      = [ {| from := "Sender"; to := "Wallet";
             amount := decimal 1 2; type := incoming |} ].
Proof. by vm_compute. Qed.

(** ** The monitor: facts shared by [index.js] and the fixed-amounts file *)
Section MonitorFacts.
Context {settings : Type}.
Variable fallback : settings.
Variable filters : transfer → settings → bool * settings.
Variable getTransaction : string → option transaction.
Variable sendMessage : Z → signature_info → send_outcome.
Variable monitoredWallet : string.

Implicit Types (m : monitor settings) (t : transfer) (sig : signature_info).
Implicit Types (c k : Z).

Local Abbreviation notify_user' :=
  (notify_user settings fallback filters sendMessage).
Local Abbreviation notifyAllUsers' :=
  (notifyAllUsers settings fallback filters sendMessage).
Local Abbreviation processTransaction' :=
  (processTransaction settings fallback filters getTransaction sendMessage
     monitoredWallet).
Local Abbreviation forget' := (forget settings).
Local Abbreviation passes' := (passes fallback filters).
Local Abbreviation after_filters' := (after_filters filters).

(** One turn of the loop, in three cases. *)
Lemma notify_user_cases t sig c m :
  notify_user' t sig c m =
    if negb (passes' t c m) then (after_filters' t c m, [])
    else if blocked_the_bot (sendMessage c sig)
    then (forget' c (after_filters' t c m),
          [telegram_sendMessage c t sig; fs_writeFile (forget' c (after_filters' t c m))])
    else (after_filters' t c m, [telegram_sendMessage c t sig]).
Proof.
  unfold notify_user, passes, after_filters.
  destruct (userSettings m !! c) as [s|]; simpl;
    destruct (filters t _) as [[] s']; simpl; try done;
    by destruct (blocked_the_bot _).
Qed.

Lemma after_filters_lastSignature t c m :
  lastSignature (after_filters' t c m) = lastSignature m.
Proof. unfold after_filters. by destruct (userSettings m !! c). Qed.

Lemma after_filters_subscribedUsers t c m :
  subscribedUsers (after_filters' t c m) = subscribedUsers m.
Proof. unfold after_filters. by destruct (userSettings m !! c). Qed.

Lemma after_filters_other t c k m :
  k ≠ c → userSettings (after_filters' t c m) !! k = userSettings m !! k.
Proof.
  intros Hk. unfold after_filters. destruct (userSettings m !! c); [|done].
  simpl. by rewrite lookup_insert_ne.
Qed.

Lemma after_filters_is_Some t c k m :
  is_Some (userSettings (after_filters' t c m) !! k) ↔ is_Some (userSettings m !! k).
Proof.
  unfold after_filters. destruct (userSettings m !! c) eqn:Hc; [|done].
  simpl. destruct (decide (c = k)) as [->|Hne].
  - rewrite lookup_insert_eq, Hc. split; eauto.
  - by rewrite lookup_insert_ne.
Qed.

Lemma notify_user_lastSignature t sig c m :
  lastSignature (notify_user' t sig c m).1 = lastSignature m.
Proof.
  rewrite notify_user_cases.
  destruct (passes' t c m); simpl; [destruct (blocked_the_bot _); simpl|];
    apply after_filters_lastSignature.
Qed.

Lemma notify_user_fetched t sig c m : fetched (notify_user' t sig c m).2 = [].
Proof.
  rewrite notify_user_cases.
  destruct (passes' t c m); simpl; [by destruct (blocked_the_bot _)|done].
Qed.

Lemma fetched_app (es es' : list (event settings)) :
  fetched (es ++ es') = fetched es ++ fetched es'.
Proof. apply omap_app. Qed.

Lemma alerts_to_app k (es es' : list (event settings)) :
  alerts_to k (es ++ es') = alerts_to k es ++ alerts_to k es'.
Proof. apply omap_app. Qed.

Lemma notifyAllUsers_lastSignature t sig m :
  lastSignature (notifyAllUsers' t sig m).1 = lastSignature m.
Proof.
  unfold notifyAllUsers.
  apply (for_of_keeps (λ m', lastSignature m' = lastSignature m)); [|done].
  intros c m' <-. apply notify_user_lastSignature.
Qed.

Lemma notifyAllUsers_fetched t sig m : fetched (notifyAllUsers' t sig m).2 = [].
Proof.
  unfold notifyAllUsers.
  rewrite (for_of_calls fetched (λ _, [])); [|done|apply fetched_app|].
  - by induction (subscribedUsers m).
  - intros. apply notify_user_fetched.
Qed.

Lemma processTransaction_lastSignature sig m :
  lastSignature (processTransaction' sig m).1 = lastSignature m.
Proof.
  unfold processTransaction. rewrite andThen_state. simpl.
  destruct (getTransaction (signature sig)) as [tx|]; [|done].
  apply (for_of_keeps (λ m', lastSignature m' = lastSignature m)); [|done].
  intros t m' <-. apply notifyAllUsers_lastSignature.
Qed.

Lemma processTransaction_fetched sig m :
  fetched (processTransaction' sig m).2 = [signature sig].
Proof.
  unfold processTransaction. rewrite andThen_calls. simpl. f_equal.
  destruct (getTransaction (signature sig)) as [tx|]; [|done].
  rewrite (for_of_calls fetched (λ _, [])); [|done|apply fetched_app|].
  - by induction (parseSOLTransfers tx monitoredWallet).
  - intros. apply notifyAllUsers_fetched.
Qed.

(** The transactions processed by a loop over [l], in order. *)
Lemma process_all_fetched (l : list signature_info) m :
  fetched (for_of l processTransaction' m).2 = signature <$> l.
Proof.
  rewrite (for_of_calls fetched (λ sig, [signature sig])); [|done|apply fetched_app|].
  - induction l as [|x l IH]; [done|]. simpl. by f_equal.
  - intros. apply processTransaction_fetched.
Qed.

Lemma process_all_lastSignature (l : list signature_info) m :
  lastSignature (for_of l processTransaction' m).1 = lastSignature m.
Proof.
  apply (for_of_keeps (λ m', lastSignature m' = lastSignature m)); [|done].
  intros sig m' <-. apply processTransaction_lastSignature.
Qed.

End MonitorFacts.

(** ** The poll diff *)

Lemma scan_new_acc (cursor : option string) (l acc : list signature_info) :
  scan_new cursor l acc = acc ++ scan_new cursor l [].
Proof.
  revert acc. induction l as [|sig l IH]; intros acc; simpl.
  - by rewrite app_nil_r.
  - destruct (decide _); [by rewrite app_nil_r|].
    rewrite (IH (acc ++ [sig])), (IH [sig]). by rewrite <- app_assoc.
Qed.

Lemma newSignatures_cons (cursor : option string) sig (l : list signature_info) :
  newSignatures cursor (sig :: l) =
    if decide (Some (signature sig) = cursor) then []
    else sig :: newSignatures cursor l.
Proof.
  unfold newSignatures. simpl. destruct (decide _); [done|].
  by rewrite scan_new_acc.
Qed.

(** The loop of the source collects what the specification describes. *)
Lemma newSignatures_collect_until (cursor : string) (l : list signature_info) :
  newSignatures (Some cursor) l = collect_until cursor l.
Proof.
  induction l as [|sig l IH]; [done|].
  rewrite newSignatures_cons. simpl.
  destruct (decide (signature sig = cursor)) as [->|Hne].
  - by rewrite decide_True.
  - rewrite decide_False by congruence. by rewrite IH.
Qed.

(** With no cursor nothing stops the scan. *)
Lemma newSignatures_no_cursor (l : list signature_info) :
  newSignatures None l = l.
Proof.
  induction l as [|sig l IH]; [done|].
  rewrite newSignatures_cons. simpl. by rewrite IH.
Qed.

(** C5. With a cursor present, the scan of [checkForNewTransactions] collects
    the ids of the newest-first list up to the cursor id or the end of the
    list; they are processed in the reverse order, oldest first, and the
    cursor after the cycle is the last id processed (or stays when there is
    none).  With cursor S3 and the list S5, S4, S3 the ids processed are S4
    then S5 and the cursor ends at S5. *)
Theorem poll_diff (cursor : string) (signatures : list signature_info)
    (u : gmap Z Index.settings) (subs : list Z)
    (getTransaction : string → option transaction)
    (sendMessage : Z → signature_info → send_outcome) (monitoredWallet : string) :
  let m := {| userSettings := u; subscribedUsers := subs;
              lastSignature := Some cursor |} in
  let r := Index.checkForNewTransactions getTransaction sendMessage
             monitoredWallet signatures m in
  let scenario := Index.checkForNewTransactions getTransaction sendMessage
             monitoredWallet five_to_three (idle (Some "S3")) in
  rev (newSignatures (Some cursor) signatures) = diff_spec cursor signatures
  ∧ fetched r.2 = signature <$> diff_spec cursor signatures
  ∧ lastSignature r.1
      = Some (default cursor (signature <$> last (diff_spec cursor signatures)))
  ∧ diff_spec "S3" five_to_three = [sig_ "S4"; sig_ "S5"]
  ∧ fetched scenario.2 = ["S4"; "S5"]
  ∧ lastSignature scenario.1 = Some "S5".
Proof.
  assert (Hgen : ∀ cursor signatures u subs,
    let m := {| userSettings := u; subscribedUsers := subs;
                lastSignature := Some cursor |} in
    let r := Index.checkForNewTransactions getTransaction sendMessage
               monitoredWallet signatures m in
    fetched r.2 = signature <$> diff_spec cursor signatures
    ∧ lastSignature r.1
        = Some (default cursor (signature <$> last (diff_spec cursor signatures)))).
  { clear. intros cursor signatures u subs m r. subst r.
    unfold Index.checkForNewTransactions, checkForNewTransactions, diff_spec.
    destruct signatures as [|newest rest]; [done|].
    cbv zeta. change (lastSignature m) with (Some cursor).
    rewrite newSignatures_collect_until.
    remember (collect_until cursor (newest :: rest)) as new eqn:Hnew.
    destruct new as [|first new]; [done|].
    assert (first = newest) as ->.
    { simpl in Hnew. destruct (decide _); congruence. }
    replace (0 <? length (newest :: new))%nat with true by done.
    rewrite !andThen_state, !andThen_calls. simpl modify. simpl saveUserData.
    cbn [fst snd]. split.
    - rewrite !fetched_app, process_all_fetched. done.
    - rewrite process_all_lastSignature. simpl lastSignature.
      change (rev (newest :: new)) with (rev new ++ [newest]).
      by rewrite last_snoc. }
  intros m r scenario. split; [|split; [|split; [|split; [|split]]]].
  - unfold diff_spec. by rewrite newSignatures_collect_until.
  - apply Hgen.
  - apply Hgen.
  - by vm_compute.
  - subst scenario. unfold idle. rewrite (proj1 (Hgen _ _ _ _)). by vm_compute.
  - subst scenario. unfold idle. rewrite (proj2 (Hgen _ _ _ _)). by vm_compute.
Qed.

(** ** The baseline *)

Lemma valid_address_not_empty (publicKey_ok : string → bool) (a : string) :
  isValidSolanaAddress publicKey_ok a = true → String.eqb a "" = false.
Proof.
  unfold isValidSolanaAddress. intros H.
  destruct (String.eqb_spec a "") as [->|]; [|done].
  simpl in H. by rewrite andb_false_r in H.
Qed.

(** C4 as stated fails.  When the wallet has no transaction at
    the start, [startMonitoring] leaves the cursor absent; a later poll that
    returns S3, S2, S1 then finds three new ids, processes them oldest first,
    and alerts the subscriber for the deposit in S1. *)
Lemma absent_cursor_poll_emits_all :
  let started :=
    Index.startMonitoring any_key wallet_address [] (one_subscriber None) in
  let polled :=
    Index.checkForNewTransactions (only "S1" tx_deposit) always_delivered
      wallet_address three_ids started.1 in
  lastSignature started.1 = None
  ∧ newSignatures None three_ids = three_ids
  ∧ fetched polled.2 = ["S1"; "S2"; "S3"]
  ∧ alerts_to 1 polled.2 = [(deposit, sig_ "S1")].
Proof. by vm_compute. Qed.

(** C4, amended.  When the cursor is absent at the start of monitoring and
    the wallet has transactions, [startMonitoring] takes the newest id as the
    cursor, writes the file, and processes nothing; the poll that follows,
    over the same ids, finds no new id, makes no call, and leaves the monitor
    as it is.  (A poll that still finds the cursor absent takes every id it is
    given as new.) *)
Theorem baseline_at_start (m : Index.monitor)
    (newest : signature_info) (older : list signature_info)
    (publicKey_ok : string → bool)
    (getTransaction : string → option transaction)
    (sendMessage : Z → signature_info → send_outcome) (monitoredWallet : string) :
  lastSignature m = None →
  isValidSolanaAddress publicKey_ok monitoredWallet = true →
  let history := newest :: older in
  let started :=
    Index.startMonitoring publicKey_ok monitoredWallet (take 1 history) m in
  let polled :=
    Index.checkForNewTransactions getTransaction sendMessage monitoredWallet
      (take 10 history) started.1 in
  lastSignature started.1 = Some (signature newest)
  ∧ started.2 = [fs_writeFile started.1]
  ∧ newSignatures (lastSignature started.1) (take 10 history) = []
  ∧ polled = (started.1, []).
Proof.
  intros Hnone Hvalid history started polled.
  assert (Hstarted : started =
    (set_lastSignature Index.settings (Some (signature newest)) m,
     [fs_writeFile (set_lastSignature Index.settings (Some (signature newest)) m)])).
  { subst started. unfold Index.startMonitoring, startMonitoring.
    rewrite (valid_address_not_empty _ _ Hvalid), Hvalid, Hnone. done. }
  assert (Hnew : newSignatures (Some (signature newest)) (take 10 history) = []).
  { subst history. simpl. rewrite newSignatures_cons. by rewrite decide_True. }
  subst polled. rewrite Hstarted. cbn [fst snd]. repeat split; try done.
  unfold Index.checkForNewTransactions, checkForNewTransactions.
  simpl lastSignature. rewrite Hnew. done.
Qed.

Lemma baseline_at_start_witness :
  lastSignature (one_subscriber None) = None
  ∧ isValidSolanaAddress any_key wallet_address = true
  ∧ let started :=
      Index.startMonitoring any_key wallet_address (take 1 three_ids)
        (one_subscriber None) in
    let polled :=
      Index.checkForNewTransactions (only "S1" tx_deposit) always_delivered
        wallet_address (take 10 three_ids) started.1 in
    lastSignature started.1 = Some "S3"
    ∧ started.2 = [fs_writeFile started.1]
    ∧ newSignatures (lastSignature started.1) (take 10 three_ids) = []
    ∧ polled = (started.1, []).
Proof.
  split; [reflexivity|]. split; [reflexivity|].
  apply (baseline_at_start (one_subscriber None) (sig_ "S3") [sig_ "S2"; sig_ "S1"]
           any_key (only "S1" tx_deposit) always_delivered wallet_address);
    reflexivity.
Defined.

(** ** The cursor and the processing of an id *)

Lemma cursor_behind_quiet (c : option string) (allowed : list (option string))
    (run rest : list seen) :
  quiet c run → c ∈ allowed →
  cursor_behind allowed (run ++ rest) = cursor_behind allowed rest.
Proof.
  intros Hq Hc. induction Hq as [|o run [->| ->] _ IH]; [done| |]; simpl.
  - exact IH.
  - by rewrite bool_decide_eq_true_2.
Qed.

Lemma quiet_app (c : option string) (run run' : list seen) :
  quiet c run → quiet c run' → quiet c (run ++ run').
Proof. apply Forall_app_2. Qed.

Section HardcodedFacts.
Variable getTransaction : string → option transaction.
Variable sendMessage : Z → signature_info → send_outcome.
Variable monitoredWallet : string.

Lemma keeps_cursor_skip : keeps_cursor skip.
Proof. intros m. split; [done|]. apply Forall_nil_2. Qed.

Lemma keeps_cursor_andThen a b :
  keeps_cursor a → keeps_cursor b → keeps_cursor (a ;; b).
Proof.
  intros Ha Hb m. rewrite andThen_state, andThen_calls, fmap_app.
  destruct (Ha m) as [Hc Hq]. destruct (Hb (a m).1) as [Hc' Hq'].
  rewrite Hc in Hc', Hq'. split; [done|]. by apply quiet_app.
Qed.

Lemma keeps_cursor_for_of {A} (l : list A)
    (body : A → action Hardcoded.monitor Hardcoded.event) :
  (∀ x, keeps_cursor (body x)) → keeps_cursor (for_of l body).
Proof.
  intros Hbody. induction l as [|x l IH]; [apply keeps_cursor_skip|].
  rewrite for_of_cons. by apply keeps_cursor_andThen.
Qed.

Lemma hardcoded_notify_user_keeps_cursor t sig c :
  keeps_cursor (Hardcoded.notify_user sendMessage t sig c).
Proof.
  intros m. unfold Hardcoded.notify_user.
  destruct (blocked_the_bot _); simpl; (split; [done|]).
  - apply Forall_cons_2; [by left|]. apply Forall_cons_2; [by right|].
    apply Forall_nil_2.
  - apply Forall_cons_2; [by left|]. apply Forall_nil_2.
Qed.

Lemma hardcoded_notifyAllUsers_keeps_cursor t sig :
  keeps_cursor (Hardcoded.notifyAllUsers sendMessage t sig).
Proof.
  intros m. unfold Hardcoded.notifyAllUsers.
  apply keeps_cursor_for_of. intros c. apply hardcoded_notify_user_keeps_cursor.
Qed.

(** One turn of the loop of the hardcoded file: the request for the
    transaction, quiet calls, then the id written as the cursor. *)
Lemma hardcoded_turn (sig : signature_info) (m : Hardcoded.monitor) :
  let r := (Hardcoded.processTransaction getTransaction sendMessage
              monitoredWallet sig ;;
            modify (Hardcoded.set_lastSignature (Some (signature sig))) ;;
            Hardcoded.saveUserData) m in
  Hardcoded.lastSignature r.1 = Some (signature sig)
  ∧ ∃ calls,
      quiet (Hardcoded.lastSignature m) calls
      ∧ hardcoded_observe <$> r.2
        = attempted (signature sig) :: calls ++ [cursor_saved (Some (signature sig))].
Proof.
  intros r. subst r. rewrite !andThen_state, !andThen_calls.
  split; [done|].
  unfold Hardcoded.processTransaction. rewrite andThen_calls, andThen_state.
  set (inner := match getTransaction (signature sig) with
                | Some tx => _ | None => skip end).
  assert (Hinner : keeps_cursor inner).
  { subst inner. destruct (getTransaction (signature sig)) as [tx|];
      [|apply keeps_cursor_skip].
    apply keeps_cursor_for_of. intros t.
    destruct (includes _ _); [apply hardcoded_notifyAllUsers_keeps_cursor|].
    apply keeps_cursor_skip. }
  destruct (Hinner m) as [_ Hq].
  exists (hardcoded_observe <$> (inner m).2). split; [exact Hq|].
  simpl. by rewrite fmap_app.
Qed.

(** The loop of the hardcoded file: every cursor it writes is an id it has
    asked for. *)
Lemma hardcoded_loop_cursor_behind (l : list signature_info)
    (m : Hardcoded.monitor) (allowed : list (option string)) :
  Hardcoded.lastSignature m ∈ allowed →
  cursor_behind allowed
    (hardcoded_observe <$>
       (for_of l
          (λ sig, Hardcoded.processTransaction getTransaction sendMessage
                    monitoredWallet sig ;;
                  modify (Hardcoded.set_lastSignature (Some (signature sig))) ;;
                  Hardcoded.saveUserData) m).2) = true.
Proof.
  revert m allowed. induction l as [|sig l IH]; intros m allowed Hm; [done|].
  rewrite for_of_cons, andThen_calls, fmap_app. cbv beta.
  pose proof (hardcoded_turn sig m) as Hturn. cbv zeta in Hturn.
  destruct Hturn as (Hlast & calls & Hq & ->).
  cbn [app cursor_behind]. rewrite <- app_assoc.
  rewrite (cursor_behind_quiet _ _ _ _ Hq) by (by apply elem_of_cons; right).
  cbn [app cursor_behind].
  rewrite bool_decide_eq_true_2 by (by apply elem_of_cons; left).
  apply IH. rewrite Hlast. apply elem_of_cons. by left.
Qed.

End HardcodedFacts.

(** The hardcoded file keeps the cursor behind the attempts, in every poll
    cycle. *)
Lemma hardcoded_cursor_behind
    (getTransaction : string → option transaction)
    (sendMessage : Z → signature_info → send_outcome)
    (monitoredWallet : string) (signatures : list signature_info)
    (m : Hardcoded.monitor) :
  cursor_behind [Hardcoded.lastSignature m]
    (hardcoded_observe <$>
       (Hardcoded.checkForNewTransactions getTransaction sendMessage
          monitoredWallet signatures m).2) = true.
Proof.
  unfold Hardcoded.checkForNewTransactions.
  destruct signatures as [|newest rest]; [done|].
  destruct (0 <? _)%nat; [|done].
  apply hardcoded_loop_cursor_behind. by apply list_elem_of_singleton.
Qed.

(** [index.js] and the fixed-amounts file do not: a cycle that finds a new id
    writes the newest id as the cursor before it asks for any transaction. *)
Lemma cursor_first {settings} (fallback : settings)
    (filters : transfer → settings → bool * settings)
    (getTransaction : string → option transaction)
    (sendMessage : Z → signature_info → send_outcome)
    (monitoredWallet : string) (signatures : list signature_info)
    (m : monitor settings) :
  newSignatures (lastSignature m) signatures ≠ [] →
  cursor_behind [lastSignature m]
    (observe <$>
       (checkForNewTransactions settings fallback filters getTransaction
          sendMessage monitoredWallet signatures m).2) = false.
Proof.
  intros Hnew. unfold checkForNewTransactions.
  destruct signatures as [|newest rest]; [done|].
  rewrite newSignatures_cons in Hnew |- *.
  destruct (decide _) as [|Hne]; [done|].
  replace (0 <? length (newest :: _))%nat with true by done.
  rewrite !andThen_calls. simpl.
  rewrite bool_decide_eq_false_2; [done|].
  rewrite list_elem_of_singleton. congruence.
Qed.

(** C2, on cursor S3 and the list S5, S4, S3.  [index.js] and the
    fixed-amounts file write the cursor S5 to the file before they ask for S4
    or S5, so the cursor is past two ids that were not attempted; the
    hardcoded file asks for S4, writes S4, asks for S5, writes S5. *)
Theorem cursor_written_before_processing :
  let index_run :=
    (Index.checkForNewTransactions no_transaction always_delivered wallet_address
       five_to_three (idle (Some "S3"))).2 in
  let fixed_run :=
    (FixedAmounts.checkForNewTransactions no_transaction always_delivered
       wallet_address five_to_three (fixed_idle (Some "S3"))).2 in
  let hardcoded_run :=
    (Hardcoded.checkForNewTransactions no_transaction always_delivered
       wallet_address five_to_three (hardcoded_idle (Some "S3"))).2 in
  index_run
    = [fs_writeFile (idle (Some "S5")); rpc_getTransaction "S4"; rpc_getTransaction "S5"]
  ∧ cursor_behind [Some "S3"] (observe <$> index_run) = false
  ∧ fixed_run
    = [fs_writeFile (fixed_idle (Some "S5"));
       rpc_getTransaction "S4"; rpc_getTransaction "S5"]
  ∧ cursor_behind [Some "S3"] (observe <$> fixed_run) = false
  ∧ hardcoded_run
    = [Hardcoded.rpc_getTransaction "S4";
       Hardcoded.fs_writeFile (hardcoded_idle (Some "S4"));
       Hardcoded.rpc_getTransaction "S5";
       Hardcoded.fs_writeFile (hardcoded_idle (Some "S5"))]
  ∧ cursor_behind [Some "S3"] (hardcoded_observe <$> hardcoded_run) = true.
Proof. by vm_compute. Qed.

(** ** The dispatch loop, chat by chat *)

Lemma elem_of_set_delete (k c : Z) (s : list Z) :
  k ∈ set_delete c s ↔ k ∈ s ∧ k ≠ c.
Proof. unfold set_delete. rewrite list_elem_of_filter. tauto. Qed.

Lemma elem_of_set_add (k c : Z) (s : list Z) :
  k ∈ set_add c s ↔ k ∈ s ∨ k = c.
Proof.
  unfold set_add. destruct (decide (c ∈ s)) as [Hc|Hc].
  - split; [by left|]. intros [?| ->]; done.
  - rewrite elem_of_app, list_elem_of_singleton. tauto.
Qed.

Section DispatchFacts.
Context {settings : Type}.
Variable fallback : settings.
Variable filters : transfer → settings → bool * settings.
Variable sendMessage : Z → signature_info → send_outcome.

Implicit Types (m : monitor settings) (t : transfer) (sig : signature_info).
Implicit Types (c k : Z) (l : list Z).

Local Abbreviation notify_user' :=
  (notify_user settings fallback filters sendMessage).
Local Abbreviation forget' := (forget settings).
Local Abbreviation passes' := (passes fallback filters).
Local Abbreviation after_filters' := (after_filters filters).

Lemma passes_lookup t k m m' :
  userSettings m' !! k = userSettings m !! k → passes' t k m' = passes' t k m.
Proof. unfold passes. by intros ->. Qed.

Lemma after_filters_self t k m :
  userSettings (after_filters' t k m) !! k
    = (λ s, (filters t s).2) <$> userSettings m !! k.
Proof.
  unfold after_filters. destruct (userSettings m !! k) eqn:Hk; simpl.
  - by rewrite lookup_insert_eq.
  - by rewrite Hk.
Qed.

(** The turn of [c] leaves every other chat alone. *)
Lemma notify_user_other t sig c k m :
  k ≠ c →
  alerts_to k (notify_user' t sig c m).2 = []
  ∧ userSettings (notify_user' t sig c m).1 !! k = userSettings m !! k
  ∧ (k ∈ subscribedUsers (notify_user' t sig c m).1 ↔ k ∈ subscribedUsers m).
Proof.
  intros Hk. rewrite notify_user_cases.
  destruct (passes' t c m); simpl; [destruct (blocked_the_bot _); simpl|].
  - rewrite decide_False by done. rewrite lookup_delete_ne by done.
    rewrite after_filters_other by done.
    rewrite elem_of_set_delete, after_filters_subscribedUsers. tauto.
  - rewrite decide_False by done. rewrite after_filters_other by done.
    by rewrite after_filters_subscribedUsers.
  - rewrite after_filters_other by done.
    by rewrite after_filters_subscribedUsers.
Qed.

(** So does a loop over chats other than [k]. *)
Lemma others_turns t sig k l m :
  k ∉ l →
  alerts_to k (for_of l (notify_user' t sig) m).2 = []
  ∧ userSettings (for_of l (notify_user' t sig) m).1 !! k = userSettings m !! k
  ∧ (k ∈ subscribedUsers (for_of l (notify_user' t sig) m).1
     ↔ k ∈ subscribedUsers m).
Proof.
  revert m. induction l as [|c l IH]; intros m Hk; [done|].
  apply not_elem_of_cons in Hk as [Hkc Hkl].
  rewrite for_of_cons, andThen_state, andThen_calls, alerts_to_app.
  destruct (notify_user_other t sig c k m Hkc) as (-> & <- & <-).
  by apply IH.
Qed.

(** The own turn of [k]. *)
Lemma notify_user_self t sig k m :
  let r := notify_user' t sig k m in
  let gone := passes' t k m && blocked_the_bot (sendMessage k sig) in
  alerts_to k r.2 = (if passes' t k m then [(t, sig)] else [])
  ∧ (k ∈ subscribedUsers r.1 ↔ k ∈ subscribedUsers m ∧ gone = false)
  ∧ userSettings r.1 !! k
      = (if gone then None else (λ s, (filters t s).2) <$> userSettings m !! k).
Proof.
  intros r gone. subst r gone. rewrite notify_user_cases.
  destruct (passes' t k m); simpl; [destruct (blocked_the_bot _); simpl|].
  - rewrite decide_True by done. rewrite lookup_delete_eq.
    rewrite elem_of_set_delete. split; [done|]. split; [|done].
    split; intros [? ?]; done.
  - rewrite decide_True by done. rewrite after_filters_self.
    rewrite after_filters_subscribedUsers. split; [done|]. split; [|done].
    split; [by intros ?|by intros [? _]].
  - rewrite after_filters_self, after_filters_subscribedUsers.
    split; [done|]. split; [|done].
    split; [by intros ?|by intros [? _]].
Qed.

(** What a loop over distinct chats does to the chat [k] that it visits. *)
Lemma per_chat t sig k l m :
  NoDup l → k ∈ l →
  let r := for_of l (notify_user' t sig) m in
  let gone := passes' t k m && blocked_the_bot (sendMessage k sig) in
  alerts_to k r.2 = (if passes' t k m then [(t, sig)] else [])
  ∧ (k ∈ subscribedUsers r.1 ↔ k ∈ subscribedUsers m ∧ gone = false)
  ∧ userSettings r.1 !! k
      = (if gone then None else (λ s, (filters t s).2) <$> userSettings m !! k).
Proof.
  revert m. induction l as [|c l IH]; intros m Hnd Hk; [by apply elem_of_nil in Hk|].
  apply NoDup_cons in Hnd as [Hc Hnd]. cbv zeta.
  rewrite for_of_cons, andThen_state, andThen_calls, alerts_to_app.
  destruct (decide (k = c)) as [->|Hkc].
  - destruct (others_turns t sig c l (notify_user' t sig c m).1 Hc) as (-> & -> & ->).
    rewrite app_nil_r. apply notify_user_self.
  - apply elem_of_cons in Hk as [?|Hk]; [done|].
    destruct (notify_user_other t sig c k m Hkc) as (-> & Hs & Hm).
    specialize (IH (notify_user' t sig c m).1 Hnd Hk). cbv zeta in IH.
    rewrite (passes_lookup _ _ _ _ Hs), Hs, Hm in IH. exact IH.
Qed.

(** Taking a chat out undoes what the filter block did to its settings. *)
Lemma forget_after_filters t c m : forget' c (after_filters' t c m) = forget' c m.
Proof.
  unfold forget, after_filters. destruct (userSettings m !! c); [|done].
  simpl. by rewrite delete_insert_eq.
Qed.

Lemma turns_lastSignature t sig l m :
  lastSignature (for_of l (notify_user' t sig) m).1 = lastSignature m.
Proof.
  apply (for_of_keeps (λ m', lastSignature m' = lastSignature m)); [|done].
  intros c m' <-. rewrite notify_user_cases.
  assert (Hkeep : lastSignature (after_filters' t c m') = lastSignature m').
  { unfold after_filters. by destruct (userSettings m' !! c). }
  destruct (passes' t c m'); simpl; [destruct (blocked_the_bot _); simpl|]; done.
Qed.

(** A loop over distinct chats, one of which is answered with 403, splits at
    that chat: the turns of the chats in front, the failed delivery, the
    write of the monitor as it stands without the chat, and the turns of the
    chats behind, from the object that was written. *)
Lemma written_after_failure t sig c l m :
  NoDup l → c ∈ l →
  passes' t c m = true → blocked_the_bot (sendMessage c sig) = true →
  ∃ front behind,
    l = front ++ c :: behind
    ∧ let reached := for_of front (notify_user' t sig) m in
      let d := forget' c reached.1 in
      let rest := for_of behind (notify_user' t sig) d in
      for_of l (notify_user' t sig) m
        = (rest.1,
           reached.2 ++ telegram_sendMessage c t sig :: fs_writeFile d :: rest.2).
Proof.
  intros Hnd Hc Hpass Hblocked. revert m Hpass.
  induction l as [|x l IH]; intros m Hpass; [by apply elem_of_nil in Hc|].
  apply NoDup_cons in Hnd as [Hx Hnd].
  destruct (decide (c = x)) as [<-|Hcx].
  - exists [], l. split; [done|]. cbv zeta.
    rewrite (surjective_pairing (for_of (c :: l) _ m)).
    rewrite for_of_cons, andThen_state, andThen_calls.
    rewrite notify_user_cases, Hpass, Hblocked. simpl.
    by rewrite forget_after_filters.
  - apply elem_of_cons in Hc as [?|Hc]; [done|].
    destruct (notify_user_other t sig x c m Hcx) as (_ & Hs & _).
    destruct (IH Hnd Hc (notify_user' t sig x m).1) as (front & behind & -> & Hrun).
    { by rewrite (passes_lookup _ _ _ _ Hs). }
    exists (x :: front), behind. split; [done|]. cbv zeta in Hrun |- *.
    rewrite (surjective_pairing (for_of (x :: front ++ c :: behind) _ m)).
    rewrite !for_of_cons, !andThen_state, !andThen_calls, Hrun. simpl.
    by rewrite <- app_assoc.
Qed.

(** The keys of the settings map stay among the subscribers. *)
Lemma notify_user_keeps_keys t sig c m :
  (∀ k, is_Some (userSettings m !! k) → k ∈ subscribedUsers m) →
  ∀ k, is_Some (userSettings (notify_user' t sig c m).1 !! k) →
       k ∈ subscribedUsers (notify_user' t sig c m).1.
Proof.
  intros Hm k. rewrite notify_user_cases.
  destruct (passes' t c m); simpl; [destruct (blocked_the_bot _); simpl|].
  - rewrite elem_of_set_delete, after_filters_subscribedUsers.
    destruct (decide (k = c)) as [->|Hk].
    + rewrite lookup_delete_eq. by intros [? ?].
    + rewrite lookup_delete_ne by done. rewrite after_filters_is_Some. auto.
  - rewrite after_filters_subscribedUsers, after_filters_is_Some. auto.
  - rewrite after_filters_subscribedUsers, after_filters_is_Some. auto.
Qed.

(** A chat whose settings make the filter block refuse, and stay so after
    the block, gets no alert. *)
Lemma refused_never_alerted (P : settings → Prop) t sig c l m s :
  (∀ s, P s → (filters t s).1 = true ∧ P (filters t s).2) →
  userSettings m !! c = Some s → P s →
  alerts_to c (for_of l (notify_user' t sig) m).2 = [].
Proof.
  intros HP. revert m s. induction l as [|x l IH]; intros m s Hs Ps; [done|].
  rewrite for_of_cons, andThen_calls, alerts_to_app.
  destruct (decide (c = x)) as [<-|Hcx].
  - destruct (HP s Ps) as [Hrefuse Ps'].
    assert (Hpass : passes' t c m = false).
    { unfold passes. rewrite Hs. simpl. by rewrite Hrefuse. }
    rewrite notify_user_cases, Hpass. simpl.
    apply (IH _ ((filters t s).2)); [|done].
    by rewrite after_filters_self, Hs.
  - destruct (notify_user_other t sig x c m Hcx) as (-> & Hs' & _).
    simpl. apply (IH _ s); [|done]. by rewrite Hs'.
Qed.

End DispatchFacts.

(** The subscriber set stays without duplicates. *)
Lemma set_add_NoDup (c : Z) (s : list Z) : NoDup s → NoDup (set_add c s).
Proof.
  intros Hs. unfold set_add. destruct (decide (c ∈ s)) as [|Hc]; [done|].
  apply NoDup_app. split; [done|]. split; [|apply NoDup_singleton].
  intros x Hx ->%list_elem_of_singleton. done.
Qed.

Lemma set_delete_NoDup (c : Z) (s : list Z) : NoDup s → NoDup (set_delete c s).
Proof. apply NoDup_filter. Qed.

Lemma notifyAllUsers_NoDup {settings} (fallback : settings)
    (filters : transfer → settings → bool * settings)
    (send : Z → signature_info → send_outcome)
    (t : transfer) (sig : signature_info) (m : monitor settings) :
  NoDup (subscribedUsers m) →
  NoDup (subscribedUsers (notifyAllUsers settings fallback filters send t sig m).1).
Proof.
  unfold notifyAllUsers.
  apply (for_of_keeps (λ m, NoDup (subscribedUsers m))).
  clear. intros c m Hm. rewrite notify_user_cases.
  destruct (passes _ _ _ _ _); simpl; [destruct (blocked_the_bot _); simpl|];
    rewrite after_filters_subscribedUsers; [by apply set_delete_NoDup|done|done].
Qed.

(** Two notifiers that agree on [k] show [k] the same. *)
Lemma same_for_other_notifier {settings} (fallback : settings)
    (filters : transfer → settings → bool * settings)
    (send send' : Z → signature_info → send_outcome)
    (t : transfer) (sig : signature_info) (k : Z) (m : monitor settings) :
  NoDup (subscribedUsers m) →
  send k sig = send' k sig →
  same_for k (notifyAllUsers settings fallback filters send t sig m)
             (notifyAllUsers settings fallback filters send' t sig m).
Proof.
  intros Hnd Hk. unfold same_for, notifyAllUsers.
  destruct (decide (k ∈ subscribedUsers m)) as [Hin|Hout].
  - destruct (per_chat fallback filters send t sig k _ m Hnd Hin) as (-> & -> & ->).
    destruct (per_chat fallback filters send' t sig k _ m Hnd Hin) as (-> & -> & ->).
    by rewrite Hk.
  - destruct (others_turns fallback filters send t sig k _ m Hout) as (-> & -> & ->).
    by destruct (others_turns fallback filters send' t sig k _ m Hout) as (-> & -> & ->).
Qed.

(** A delivery that fails for good, in either file. *)
Lemma failure_prunes_alone {settings} (fallback : settings)
    (filters : transfer → settings → bool * settings)
    (send : Z → signature_info → send_outcome)
    (t : transfer) (sig : signature_info) (c : Z) (m : monitor settings) :
  NoDup (subscribedUsers m) →
  alerts_to c (notifyAllUsers settings fallback filters send t sig m).2 ≠ [] →
  blocked_the_bot (send c sig) = true →
  prunes_alone (notify_user settings fallback filters send t sig) c t sig m
    (notifyAllUsers settings fallback filters send t sig m)
    (notifyAllUsers settings fallback filters (spare c send) t sig m).
Proof.
  intros Hnd Halert Hblocked.
  assert (Hc : c ∈ subscribedUsers m).
  { destruct (decide (c ∈ subscribedUsers m)) as [|Hout]; [done|].
    by destruct (others_turns fallback filters send t sig c _ m Hout) as (? & _). }
  pose proof (per_chat fallback filters send t sig c _ m Hnd Hc) as Hper.
  cbv zeta in Hper. fold (notifyAllUsers settings fallback filters send t sig m) in Hper.
  destruct Hper as (Ha & Hm & Hs).
  assert (Hpass : passes fallback filters t c m = true).
  { destruct (passes fallback filters t c m); [done|]. by rewrite Ha in Halert. }
  rewrite Hpass, Hblocked in Hm, Hs. simpl in Hm, Hs.
  split; [|split].
  - split; [|done]. rewrite Hm. by intros [_ ?].
  - destruct (written_after_failure fallback filters send t sig c _ m Hnd Hc
                Hpass Hblocked) as (front & behind & Hsplit & Hrun).
    exists front, behind. split; [done|]. cbv zeta in Hrun |- *.
    split; [exact Hrun|].
    rewrite Hsplit in Hnd. apply NoDup_app in Hnd as (_ & Hfront & Hbehind).
    apply NoDup_cons in Hbehind as [Hcb _].
    split; [|split].
    + split; simpl; [|by rewrite lookup_delete_eq].
      rewrite elem_of_set_delete. tauto.
    + simpl. apply turns_lastSignature.
    + intros k Hk.
      assert (Hkc : k ≠ c) by (by intros ->).
      assert (Hkf : k ∉ front).
      { intros Hin. apply (Hfront k Hin). by apply elem_of_cons; right. }
      destruct (others_turns fallback filters send t sig k front m Hkf)
        as (_ & Hset & Hmem).
      simpl. rewrite elem_of_set_delete, Hmem, lookup_delete_ne, Hset by done.
      split; [|done]. split; [|done].
      rewrite Hsplit. apply elem_of_app; right. by apply elem_of_cons; right.
  - intros k Hk. apply same_for_other_notifier; [done|].
    unfold spare. by rewrite decide_False.
Qed.

(** ** The filter blocks *)

Lemma index_filters_blacklist (t : transfer) (s : Index.settings) :
  from t ∈ Index.blacklist s →
  (Index.filters t s).1 = true
  ∧ from t ∈ Index.blacklist (Index.filters t s).2.
Proof.
  intros Hin. unfold Index.filters.
  destruct (lt (amount t) (Index.minAmount s)); [done|].
  by rewrite bool_decide_eq_true_2.
Qed.

(** In the fixed-amounts file the first test assigns 0 to the length of the
    list and is never true: the block refuses on the blacklist alone, and
    leaves the list of amounts empty. *)
Lemma fixed_filters_unfold (t : transfer) (s : FixedAmounts.settings) :
  FixedAmounts.filters t s
    = (bool_decide (from t ∈ FixedAmounts.blacklist s),
       {| FixedAmounts.amount := []; FixedAmounts.blacklist := FixedAmounts.blacklist s |}).
Proof.
  unfold FixedAmounts.filters. simpl. rewrite take_0.
  by destruct (bool_decide _).
Qed.

Lemma fixed_filters_blacklist (t : transfer) (s : FixedAmounts.settings) :
  from t ∈ FixedAmounts.blacklist s →
  (FixedAmounts.filters t s).1 = true
  ∧ from t ∈ FixedAmounts.blacklist (FixedAmounts.filters t s).2.
Proof.
  intros Hin. rewrite fixed_filters_unfold. simpl.
  by rewrite bool_decide_eq_true_2.
Qed.

(** Whatever list of amounts a subscriber of the fixed-amounts bot has, the
    alert is sent when the sender is not in the blacklist. *)
Lemma fixed_amounts_do_not_filter (m : FixedAmounts.monitor)
    (send : Z → signature_info → send_outcome)
    (t : transfer) (sig : signature_info) (c : Z) :
  NoDup (subscribedUsers m) → c ∈ subscribedUsers m →
  from t ∉ FixedAmounts.blacklist
             (default FixedAmounts.fallback (userSettings m !! c)) →
  alerts_to c (FixedAmounts.notifyAllUsers send t sig m).2 = [(t, sig)].
Proof.
  intros Hnd Hc Hnot.
  destruct (per_chat FixedAmounts.fallback FixedAmounts.filters send t sig c _ m Hnd Hc)
    as (Ha & _).
  unfold FixedAmounts.notifyAllUsers, notifyAllUsers. rewrite Ha.
  unfold passes. rewrite fixed_filters_unfold. simpl.
  by rewrite bool_decide_eq_false_2.
Qed.

(** C1 as stated fails on [empty_amounts]: chat 1 has an empty list of
    accepted amounts and an empty blacklist, and the dispatch loop of the
    fixed-amounts file sends it the alert for a deposit of 0.3 SOL. *)
Theorem empty_amounts_are_alerted :
  userSettings empty_amounts !! 1%Z
    = Some {| FixedAmounts.amount := []; FixedAmounts.blacklist := [] |}
  ∧ FixedAmounts.notifyAllUsers always_delivered deposit (sig_ "S4") empty_amounts
    = (empty_amounts, [telegram_sendMessage 1 deposit (sig_ "S4")]).
Proof. by vm_compute. Qed.

(** C1, amended.  In the fixed-amounts file, a subscriber whose list of
    accepted amounts is empty (stored so, or not stored: the fallback
    literal has the empty list) is not filtered by amount: whatever the
    amount of the transfer, the alert is sent to that subscriber unless the
    [from] address is in the subscriber's blacklist.  On the empty list the
    first test of the block changes nothing: when the delivery does not end
    in a 403, the stored settings are what they were. *)
Theorem empty_amounts_pass (m : FixedAmounts.monitor)
    (send : Z → signature_info → send_outcome)
    (t : transfer) (sig : signature_info) (c : Z) :
  NoDup (subscribedUsers m) → c ∈ subscribedUsers m →
  FixedAmounts.amount (default FixedAmounts.fallback (userSettings m !! c)) = [] →
  let r := FixedAmounts.notifyAllUsers send t sig m in
  alerts_to c r.2
    = (if bool_decide
            (from t ∈ FixedAmounts.blacklist
                        (default FixedAmounts.fallback (userSettings m !! c)))
       then [] else [(t, sig)])
  ∧ (blocked_the_bot (send c sig) = false →
     userSettings r.1 !! c = userSettings m !! c).
Proof.
  intros Hnd Hc Hempty r. subst r.
  destruct (per_chat FixedAmounts.fallback FixedAmounts.filters send t sig c _ m Hnd Hc)
    as (Ha & _ & Hs).
  unfold FixedAmounts.notifyAllUsers, notifyAllUsers. split.
  - rewrite Ha. unfold passes. rewrite fixed_filters_unfold. simpl.
    by destruct (bool_decide _).
  - intros Hsent. rewrite Hs, Hsent, andb_false_r.
    destruct (userSettings m !! c) as [[a b]|]; [|done].
    simpl in Hempty. subst a. simpl. by rewrite fixed_filters_unfold.
Qed.

Lemma empty_amounts_pass_witness :
  (NoDup (subscribedUsers (fixed_blacklisting "Sender"))
   ∧ 2%Z ∈ subscribedUsers (fixed_blacklisting "Sender")
   ∧ FixedAmounts.amount
       (default FixedAmounts.fallback
          (userSettings (fixed_blacklisting "Sender") !! 2%Z)) = [])
  ∧ alerts_to 2 (FixedAmounts.notifyAllUsers always_delivered payout (sig_ "S4")
                   (fixed_blacklisting "Sender")).2
    = [(payout, sig_ "S4")]
  ∧ userSettings (FixedAmounts.notifyAllUsers always_delivered payout (sig_ "S4")
                    (fixed_blacklisting "Sender")).1 !! 2%Z
    = None.
Proof.
  assert (Hnd : NoDup (subscribedUsers (fixed_blacklisting "Sender"))).
  { apply (bool_decide_unpack _). vm_compute. exact I. }
  assert (Hc : 2%Z ∈ subscribedUsers (fixed_blacklisting "Sender")).
  { apply (bool_decide_unpack _). vm_compute. exact I. }
  split; [split; [exact Hnd|split; [exact Hc|reflexivity]]|].
  destruct (empty_amounts_pass (fixed_blacklisting "Sender") always_delivered payout
              (sig_ "S4") 2 Hnd Hc eq_refl) as [Halert Hkept].
  split; [exact Halert|]. by rewrite Hkept.
Defined.

(** C3 as stated fails for an outgoing transfer: the receiver
    is in the blacklist of chat 1, the amount passes the minimum, and the
    alert is sent to chat 1. *)
Lemma blacklisted_receiver_is_alerted :
  type payout = outgoing
  ∧ userSettings (blacklisting "Receiver") !! 1%Z
      = Some {| Index.minAmount := zero; Index.blacklist := ["Receiver"] |}
  ∧ fromTo payout ∈ ["Receiver"]
  ∧ lt (amount payout) zero = false
  ∧ alerts_to 1 (Index.notifyAllUsers always_delivered payout (sig_ "S4")
                   (blacklisting "Receiver")).2
    = [(payout, sig_ "S4")].
Proof.
  split; [done|]. split; [done|]. split; [|by vm_compute].
  apply list_elem_of_singleton. reflexivity.
Qed.

(** C3, amended.  In [index.js] and in the fixed-amounts file, a subscriber
    whose blacklist holds the [from] address of a transfer (the sender: the
    counterparty of an incoming transfer, the monitored wallet of an outgoing
    one) is sent no alert for it, whatever the amount and the amount
    settings. *)
Theorem blacklisted_sender_suppressed (c : Z) (t : transfer)
    (sig : signature_info) (send : Z → signature_info → send_outcome)
    (mA : Index.monitor) (sA : Index.settings)
    (mB : FixedAmounts.monitor) (sB : FixedAmounts.settings) :
  userSettings mA !! c = Some sA → from t ∈ Index.blacklist sA →
  userSettings mB !! c = Some sB → from t ∈ FixedAmounts.blacklist sB →
  alerts_to c (Index.notifyAllUsers send t sig mA).2 = []
  ∧ alerts_to c (FixedAmounts.notifyAllUsers send t sig mB).2 = [].
Proof.
  intros HsA HinA HsB HinB. split.
  - apply (refused_never_alerted Index.fallback Index.filters send
             (λ s, from t ∈ Index.blacklist s) t sig c _ mA sA); try done.
    apply index_filters_blacklist.
  - apply (refused_never_alerted FixedAmounts.fallback FixedAmounts.filters send
             (λ s, from t ∈ FixedAmounts.blacklist s) t sig c _ mB sB); try done.
    apply fixed_filters_blacklist.
Qed.

Lemma blacklisted_sender_suppressed_witness :
  (userSettings (blacklisting "Sender") !! 1%Z
     = Some {| Index.minAmount := zero; Index.blacklist := ["Sender"] |}
   ∧ from deposit ∈ ["Sender"]
   ∧ userSettings (fixed_blacklisting "Sender") !! 1%Z
     = Some {| FixedAmounts.amount := [decimal 3 10];
               FixedAmounts.blacklist := ["Sender"] |})
  ∧ alerts_to 1 (Index.notifyAllUsers always_delivered deposit (sig_ "S4")
                   (blacklisting "Sender")).2 = []
  ∧ alerts_to 1 (FixedAmounts.notifyAllUsers always_delivered deposit (sig_ "S4")
                   (fixed_blacklisting "Sender")).2 = [].
Proof.
  assert (Hin : from deposit ∈ ["Sender"]).
  { apply list_elem_of_singleton. reflexivity. }
  split; [split; [reflexivity|split; [exact Hin|reflexivity]]|].
  apply (blacklisted_sender_suppressed 1 deposit (sig_ "S4") always_delivered
           (blacklisting "Sender")
           {| Index.minAmount := zero; Index.blacklist := ["Sender"] |}
           (fixed_blacklisting "Sender")
           {| FixedAmounts.amount := [decimal 3 10];
              FixedAmounts.blacklist := ["Sender"] |});
    first [reflexivity | exact Hin].
Defined.

(** A chat that was pruned stays pruned for the rest of the poll cycle. *)
Lemma notifyAllUsers_pruned_stays {settings} (fallback : settings)
    (filters : transfer → settings → bool * settings)
    (send : Z → signature_info → send_outcome)
    (t : transfer) (sig : signature_info) (c : Z) (m : monitor settings) :
  pruned c m →
  pruned c (notifyAllUsers settings fallback filters send t sig m).1.
Proof.
  intros [Hout Hnone]. unfold notifyAllUsers.
  destruct (others_turns fallback filters send t sig c _ m Hout) as (_ & Hs & Hm).
  split; [by rewrite Hm|by rewrite Hs].
Qed.

Lemma rest_of_cycle_pruned_stays {settings} (fallback : settings)
    (filters : transfer → settings → bool * settings)
    (getTransaction : string → option transaction)
    (send : Z → signature_info → send_outcome) (monitoredWallet : string)
    (l : list signature_info) (c : Z) (m : monitor settings) :
  pruned c m →
  pruned c (for_of l (processTransaction settings fallback filters getTransaction
                        send monitoredWallet) m).1.
Proof.
  apply (for_of_keeps (pruned c)). clear. intros sig m Hm.
  unfold processTransaction. rewrite andThen_state. simpl.
  destruct (getTransaction (signature sig)); [|done].
  apply (for_of_keeps (pruned c)); [|done].
  clear. intros t m Hm. by apply notifyAllUsers_pruned_stays.
Qed.

(** C8.  In [index.js] and in the fixed-amounts file, when the delivery of an
    alert to a subscriber is attempted and Telegram answers with error code
    403, the run of [notifyAllUsers] ends with that chat out of the
    subscriber set and out of the settings map; the file is written right
    after the failed delivery, and what is written is the updated state: the
    monitor as the turns of the chats in front left it, with the chat out of
    the set and of the map, the cursor in place, and every chat behind with
    the membership and settings it started with; the loop goes on from that
    state; and every other chat sees the same alerts, membership and
    settings as in the run where that delivery succeeds. *)
Theorem permanent_failure_prunes (c : Z) (t : transfer)
    (sig : signature_info) (send : Z → signature_info → send_outcome)
    (mA : Index.monitor) (mB : FixedAmounts.monitor) :
  blocked_the_bot (send c sig) = true →
  NoDup (subscribedUsers mA) →
  alerts_to c (Index.notifyAllUsers send t sig mA).2 ≠ [] →
  NoDup (subscribedUsers mB) →
  alerts_to c (FixedAmounts.notifyAllUsers send t sig mB).2 ≠ [] →
  prunes_alone (notify_user _ Index.fallback Index.filters send t sig) c t sig mA
    (Index.notifyAllUsers send t sig mA)
    (Index.notifyAllUsers (spare c send) t sig mA)
  ∧ prunes_alone
      (notify_user _ FixedAmounts.fallback FixedAmounts.filters send t sig) c t sig mB
      (FixedAmounts.notifyAllUsers send t sig mB)
      (FixedAmounts.notifyAllUsers (spare c send) t sig mB).
Proof.
  intros Hblocked HndA HA HndB HB.
  split; by apply failure_prunes_alone.
Qed.

Lemma permanent_failure_prunes_witness :
  (blocked_the_bot (blocked_by 2 2%Z (sig_ "S4")) = true
   ∧ NoDup (subscribedUsers three_chats)
   ∧ alerts_to 2 (Index.notifyAllUsers (blocked_by 2) deposit (sig_ "S4")
                    three_chats).2 ≠ []
   ∧ NoDup (subscribedUsers fixed_three_chats)
   ∧ alerts_to 2 (FixedAmounts.notifyAllUsers (blocked_by 2) deposit (sig_ "S4")
                    fixed_three_chats).2 ≠ [])
  ∧ prunes_alone
      (notify_user _ Index.fallback Index.filters (blocked_by 2) deposit (sig_ "S4"))
      2 deposit (sig_ "S4") three_chats
      (Index.notifyAllUsers (blocked_by 2) deposit (sig_ "S4") three_chats)
      (Index.notifyAllUsers (spare 2 (blocked_by 2)) deposit (sig_ "S4") three_chats)
  ∧ prunes_alone
      (notify_user _ FixedAmounts.fallback FixedAmounts.filters (blocked_by 2)
         deposit (sig_ "S4"))
      2 deposit (sig_ "S4") fixed_three_chats
      (FixedAmounts.notifyAllUsers (blocked_by 2) deposit (sig_ "S4")
         fixed_three_chats)
      (FixedAmounts.notifyAllUsers (spare 2 (blocked_by 2)) deposit (sig_ "S4")
         fixed_three_chats).
Proof.
  assert (Hnd : NoDup [1%Z; 2%Z; 3%Z]).
  { apply (bool_decide_unpack _). vm_compute. exact I. }
  assert (HA : alerts_to 2 (Index.notifyAllUsers (blocked_by 2) deposit (sig_ "S4")
                              three_chats).2 ≠ []).
  { vm_compute. discriminate. }
  assert (HB : alerts_to 2 (FixedAmounts.notifyAllUsers (blocked_by 2) deposit
                              (sig_ "S4") fixed_three_chats).2 ≠ []).
  { vm_compute. discriminate. }
  split; [split; [reflexivity|split; [exact Hnd|split; [exact HA|split; [exact Hnd|exact HB]]]]|].
  apply (permanent_failure_prunes 2 deposit (sig_ "S4") (blocked_by 2)
           three_chats fixed_three_chats);
    first [reflexivity | exact Hnd | exact HA | exact HB].
Defined.

(** ** The command handlers of [index.js] *)

Lemma lift_state (a : action Index.monitor Index.event) (b : Index.bot) :
  Index.state (Index.lift a b).1 = (a (Index.state b)).1.
Proof. unfold Index.lift. by destruct (a (Index.state b)). Qed.

(** [/unsubscribe] takes the chat out of the set and out of the map in one
    step. *)
Lemma unsubscribe_prunes (c : Z) (b : Index.bot) :
  pruned c (Index.state (Index.on_unsubscribe c b).1).
Proof.
  unfold Index.on_unsubscribe. rewrite lift_state. split; simpl.
  - rewrite elem_of_set_delete. tauto.
  - by rewrite lookup_delete_eq.
Qed.

Lemma checkForNewTransactions_keeps_keys
    (getTransaction : string → option transaction)
    (sendMessage : Z → signature_info → send_outcome)
    (monitoredWallet : string) (signatures : list signature_info)
    (m : Index.monitor) :
  Index.settings_of_subscribers m →
  Index.settings_of_subscribers
    (Index.checkForNewTransactions getTransaction sendMessage monitoredWallet
       signatures m).1.
Proof.
  intros Hm. unfold Index.checkForNewTransactions, checkForNewTransactions.
  destruct signatures as [|newest rest]; [done|].
  destruct (0 <? _)%nat; [|done].
  rewrite !andThen_state. simpl.
  apply (for_of_keeps Index.settings_of_subscribers); [|done].
  clear. intros sig m Hm. unfold processTransaction. rewrite andThen_state. simpl.
  destruct (getTransaction (signature sig)); [|done].
  apply (for_of_keeps Index.settings_of_subscribers); [|done].
  clear. intros t m Hm. unfold notifyAllUsers.
  apply (for_of_keeps Index.settings_of_subscribers); [|done].
  clear. intros c m Hm k. by apply notify_user_keeps_keys.
Qed.

Lemma set_settings_keeps_keys (c : Z) (s : Index.settings) (m : Index.monitor) :
  c ∈ subscribedUsers m →
  Index.settings_of_subscribers m →
  Index.settings_of_subscribers
    ((modify (Index.set_settings c s) ;; saveUserData Index.settings) m).1.
Proof.
  intros Hc Hm k. rewrite andThen_state.
  unfold saveUserData, modify, Index.set_settings, set_userSettings.
  cbn [fst userSettings subscribedUsers].
  destruct (decide (k = c)) as [->|Hk]; [done|].
  rewrite lookup_insert_ne by done. apply Hm.
Qed.

(** Every input other than a number keeps the keys of the settings map among
    the subscribers; the blacklist handlers test the subscription first. *)
Lemma handle_keeps_keys (i : Index.input) (b : Index.bot) :
  (∀ c a, i ≠ Index.number c a) →
  Index.settings_of_subscribers (Index.state b) →
  Index.settings_of_subscribers (Index.state (Index.handle i b).1).
Proof.
  intros Hi Hb.
  destruct i as [c|c|c|c|c a|ok c a|c n|send t sig|rpc send wallet sigs];
    cbn [Index.handle].
  - unfold Index.on_start. rewrite lift_state, andThen_state. simpl.
    intros k Hk. simpl. apply elem_of_set_add. left. by apply Hb.
  - unfold Index.on_unsubscribe. rewrite lift_state, andThen_state. simpl.
    intros k. simpl. rewrite elem_of_set_delete.
    destruct (decide (k = c)) as [->|Hk].
    + rewrite lookup_delete_eq. by intros [? ?].
    + rewrite lookup_delete_ne by done. auto.
  - done.
  - done.
  - by destruct (Hi c a).
  - unfold Index.on_address. rewrite lift_state.
    destruct (bool_decide (c ∈ subscribedUsers (Index.state b))) eqn:Hc; [|done].
    apply bool_decide_eq_true in Hc. cbn [negb].
    destruct (isValidSolanaAddress ok a); [|done].
    destruct (bool_decide (a ∈ _)); [done|]. cbn [negb].
    by apply set_settings_keeps_keys.
  - unfold Index.on_remove. rewrite lift_state.
    destruct (bool_decide (c ∈ subscribedUsers (Index.state b))) eqn:Hc; [|done].
    apply bool_decide_eq_true in Hc. cbn [negb].
    destruct (_ && _); [|done].
    by apply set_settings_keeps_keys.
  - rewrite lift_state. unfold Index.notifyAllUsers, notifyAllUsers.
    apply (for_of_keeps Index.settings_of_subscribers); [|done].
    clear. intros c m Hm k. by apply notify_user_keeps_keys.
  - rewrite lift_state. by apply checkForNewTransactions_keeps_keys.
Qed.

Lemma handle_keeps_NoDup (i : Index.input) (b : Index.bot) :
  NoDup (subscribedUsers (Index.state b)) →
  NoDup (subscribedUsers (Index.state (Index.handle i b).1)).
Proof.
  intros Hb.
  destruct i as [c|c|c|c|c a|ok c a|c n|send t sig|rpc send wallet sigs];
    cbn [Index.handle].
  - unfold Index.on_start. rewrite lift_state, andThen_state. simpl.
    by apply set_add_NoDup.
  - unfold Index.on_unsubscribe. rewrite lift_state, andThen_state. simpl.
    by apply set_delete_NoDup.
  - done.
  - done.
  - unfold Index.on_number. destruct (Index.hears b) as [|owner ?]; [done|].
    rewrite lift_state. unfold Index.min_amount_listener.
    by destruct (decide _).
  - unfold Index.on_address. rewrite lift_state.
    destruct (negb _); [done|]. destruct (isValidSolanaAddress ok a); [|done].
    by destruct (negb _).
  - unfold Index.on_remove. rewrite lift_state.
    destruct (negb _); [done|]. by destruct (_ && _).
  - rewrite lift_state. by apply notifyAllUsers_NoDup.
  - rewrite lift_state.
    unfold Index.checkForNewTransactions, checkForNewTransactions.
    destruct sigs as [|newest rest]; [done|].
    destruct (0 <? _)%nat; [|done].
    rewrite !andThen_state. simpl.
    apply (for_of_keeps (λ m, NoDup (subscribedUsers m))); [|done].
    clear. intros sig m Hm. unfold processTransaction. rewrite andThen_state. simpl.
    destruct (rpc (signature sig)); [|done].
    apply (for_of_keeps (λ m, NoDup (subscribedUsers m))); [|done].
    clear. intros t m Hm. by apply notifyAllUsers_NoDup.
Qed.

(** In every state that the bot reaches, the subscriber list is a set. *)
Lemma reachable_NoDup (b : Index.bot) :
  Index.reachable b → NoDup (subscribedUsers (Index.state b)).
Proof.
  intros [inputs <-]. unfold Index.run.
  apply (for_of_keeps (λ b, NoDup (subscribedUsers (Index.state b)))).
  - intros i b' Hb'. by apply handle_keeps_NoDup.
  - apply NoDup_nil_2.
Qed.

(** C9, on [leave_then_number].  The listener of the minimum-amount prompt
    does not test the subscription: after /start, the prompt, /unsubscribe
    and the number 5, chat 1 has settings and is not a subscriber. *)
Theorem settings_after_unsubscribe :
  let b := (Index.run leave_then_number Index.fresh).1 in
  Index.reachable b
  ∧ userSettings (Index.state b) !! 1%Z
      = Some {| Index.minAmount := of_int 5; Index.blacklist := [] |}
  ∧ subscribedUsers (Index.state b) = []
  ∧ ¬ Index.settings_of_subscribers (Index.state b).
Proof.
  intros b. split; [by exists leave_then_number|].
  assert (Hs : userSettings (Index.state b) !! 1%Z
               = Some {| Index.minAmount := of_int 5; Index.blacklist := [] |})
    by (by vm_compute).
  assert (Hu : subscribedUsers (Index.state b) = []) by (by vm_compute).
  split; [done|]. split; [done|].
  intros Hinv. specialize (Hinv 1%Z). rewrite Hs, Hu in Hinv.
  by apply (elem_of_nil 1%Z), Hinv.
Qed.


(** * More properties *)

(** ** Extraction *)

Lemma find_targetIndex_absent (keys : list string) (w : string) (i : nat) :
  w ∉ keys → find_targetIndex keys w i = None.
Proof.
  revert i. induction keys as [|k keys IH]; intros i Hw; [done|].
  apply not_elem_of_cons in Hw as [Hk Hw]. simpl.
  destruct (String.eqb_spec k w) as [->|_]; [done|]. by apply IH.
Qed.

(** X1. A transaction whose account keys do not hold the monitored address
    gives no transfer. *)
Theorem wallet_absent_no_transfer (tx : transaction) (targetWallet : string) :
  targetWallet ∉ accountKeys tx → parseSOLTransfers tx targetWallet = [].
Proof.
  intros Hw. unfold parseSOLTransfers. by rewrite find_targetIndex_absent.
Qed.

Lemma wallet_absent_no_transfer_witness :
  (wallet_address ∉ accountKeys tx_without_wallet)
  ∧ parseSOLTransfers tx_without_wallet wallet_address = [].
Proof.
  assert (H : wallet_address ∉ accountKeys tx_without_wallet).
  { apply (bool_decide_unpack _). vm_compute. exact I. }
  split; [exact H|]. exact (wallet_absent_no_transfer _ _ H).
Defined.

Lemma sub_NaN_l (x : number) : sub NaN x = NaN.
Proof. by destruct x. Qed.

Lemma sub_NaN_r (x : number) : sub x NaN = NaN.
Proof. by destruct x as [[]|[]| |[] ? ?]. Qed.

(** X2. When a balance array has no entry at the index of the monitored
    address, the balance change is NaN and no transfer is returned. *)
Theorem missing_balance_no_transfer (tx : transaction) (targetWallet : string)
    (targetIndex : nat) :
  find_targetIndex (accountKeys tx) targetWallet 0 = Some targetIndex →
  preBalances tx !! targetIndex = None ∨ postBalances tx !! targetIndex = None →
  parseSOLTransfers tx targetWallet = [].
Proof.
  intros Hidx Hmissing. unfold parseSOLTransfers. rewrite Hidx. simpl.
  assert (Hnan : rise tx targetIndex = NaN).
  { unfold rise, at_index. destruct Hmissing as [-> | ->].
    - by rewrite sub_NaN_r.
    - by rewrite sub_NaN_l. }
  by rewrite Hnan.
Qed.

Lemma missing_balance_no_transfer_witness :
  (find_targetIndex (accountKeys tx_short_balances) wallet_address 0 = Some 1%nat
   ∧ preBalances tx_short_balances !! 1%nat = None)
  ∧ parseSOLTransfers tx_short_balances wallet_address = [].
Proof.
  split; [split; reflexivity|].
  apply (missing_balance_no_transfer tx_short_balances wallet_address 1);
    [reflexivity|left; reflexivity].
Defined.

(** X3. A returned transfer has the monitored address on one side and the
    balance change as its amount: an incoming transfer goes to the address
    and its amount is the change, which is positive; an outgoing transfer
    comes from the address and its amount is the absolute value of the
    change, which is negative. *)
Theorem transfer_sides (tx : transaction) (targetWallet : string) (t : transfer) :
  t ∈ parseSOLTransfers tx targetWallet →
  ∃ targetIndex,
    find_targetIndex (accountKeys tx) targetWallet 0 = Some targetIndex
    ∧ match type t with
      | incoming =>
          to t = targetWallet ∧ amount t = rise tx targetIndex
          ∧ gt (rise tx targetIndex) zero = true
      | outgoing =>
          from t = targetWallet ∧ amount t = abs (rise tx targetIndex)
          ∧ lt (rise tx targetIndex) zero = true
      end.
Proof.
  unfold parseSOLTransfers.
  destruct (find_targetIndex (accountKeys tx) targetWallet 0) as [targetIndex|] eqn:Hidx;
    [|by intros ?%elem_of_nil].
  simpl. intros Ht. exists targetIndex. split; [done|].
  destruct (gt (rise tx targetIndex) zero) eqn:Hup.
  - destruct (find_sender_first tx targetWallet targetIndex (rise tx targetIndex)
                (accountKeys tx) 0) as [[Hnil _]|(j & k & Hone & _)];
      rewrite ?Hnil, ?Hone in Ht; [by apply elem_of_nil in Ht|].
    apply list_elem_of_singleton in Ht as ->. done.
  - destruct (lt (rise tx targetIndex) zero) eqn:Hdown; [|by apply elem_of_nil in Ht].
    destruct (find_receiver_first tx targetWallet targetIndex (rise tx targetIndex)
                (accountKeys tx) 0) as [[Hnil _]|(j & k & Hone & _)];
      rewrite ?Hnil, ?Hone in Ht; [by apply elem_of_nil in Ht|].
    apply list_elem_of_singleton in Ht as ->. done.
Qed.

Lemma transfer_sides_witness :
  payout_seen ∈ parseSOLTransfers tx_payout wallet_address
  ∧ ∃ targetIndex,
      find_targetIndex (accountKeys tx_payout) wallet_address 0 = Some targetIndex
      ∧ from payout_seen = wallet_address
      ∧ amount payout_seen = abs (rise tx_payout targetIndex)
      ∧ lt (rise tx_payout targetIndex) zero = true.
Proof.
  assert (H : payout_seen ∈ parseSOLTransfers tx_payout wallet_address).
  { replace (parseSOLTransfers tx_payout wallet_address) with [payout_seen]
      by (by vm_compute).
    by apply list_elem_of_singleton. }
  split; [exact H|].
  exact (transfer_sides tx_payout wallet_address payout_seen H).
Defined.

(** X4. The counterparty of a returned transfer is the key at the first
    index that passes the test of its direction: for an outgoing transfer,
    the first index other than the monitored one whose balance rose, by an
    amount within 0.001 of the fall. *)
Theorem counterparty_first_match (tx : transaction) (targetWallet : string)
    (t : transfer) :
  t ∈ parseSOLTransfers tx targetWallet →
  ∃ targetIndex i,
    find_targetIndex (accountKeys tx) targetWallet 0 = Some targetIndex
    ∧ accountKeys tx !! i = Some (fromTo t)
    ∧ counterparty_test tx targetIndex (type t) i = true
    ∧ (∀ j, (j < i)%nat → counterparty_test tx targetIndex (type t) j = false)
    ∧ (type t = outgoing → gt (rise tx i) zero = true).
Proof.
  unfold parseSOLTransfers.
  destruct (find_targetIndex (accountKeys tx) targetWallet 0) as [targetIndex|] eqn:Hidx;
    [|by intros ?%elem_of_nil].
  simpl. intros Ht. exists targetIndex.
  destruct (gt (rise tx targetIndex) zero) eqn:Hup.
  - destruct (find_sender_first tx targetWallet targetIndex (rise tx targetIndex)
                (accountKeys tx) 0) as [[Hnil _]|(j & k & Hone & Hk & Hj & Hfirst)];
      rewrite ?Hnil, ?Hone in Ht; [by apply elem_of_nil in Ht|].
    apply list_elem_of_singleton in Ht as ->. exists j. by repeat split.
  - destruct (lt (rise tx targetIndex) zero) eqn:Hdown; [|by apply elem_of_nil in Ht].
    destruct (find_receiver_first tx targetWallet targetIndex (rise tx targetIndex)
                (accountKeys tx) 0) as [[Hnil _]|(j & k & Hone & Hk & Hj & Hfirst)];
      rewrite ?Hnil, ?Hone in Ht; [by apply elem_of_nil in Ht|].
    apply list_elem_of_singleton in Ht as ->. exists j.
    split; [done|]. split; [done|]. split; [done|]. split; [done|].
    intros _. simpl in Hj. unfold receiver_test in Hj.
    by apply andb_prop in Hj as [_ [? _]%andb_prop].
Qed.

Lemma counterparty_first_match_witness :
  payout_seen ∈ parseSOLTransfers tx_payout wallet_address
  ∧ ∃ targetIndex i,
      find_targetIndex (accountKeys tx_payout) wallet_address 0 = Some targetIndex
      ∧ accountKeys tx_payout !! i = Some (fromTo payout_seen)
      ∧ counterparty_test tx_payout targetIndex (type payout_seen) i = true
      ∧ (∀ j, (j < i)%nat →
              counterparty_test tx_payout targetIndex (type payout_seen) j = false)
      ∧ (type payout_seen = outgoing → gt (rise tx_payout i) zero = true).
Proof.
  assert (H : payout_seen ∈ parseSOLTransfers tx_payout wallet_address).
  { replace (parseSOLTransfers tx_payout wallet_address) with [payout_seen]
      by (by vm_compute).
    by apply list_elem_of_singleton. }
  split; [exact H|].
  exact (counterparty_first_match tx_payout wallet_address payout_seen H).
Defined.

(** X5. When the balance of the monitored address is the same before and
    after, no transfer is returned, whatever the other balances do. *)
Theorem unchanged_balance_no_transfer (tx : transaction) (targetWallet : string)
    (targetIndex : nat) (balance : Z) :
  find_targetIndex (accountKeys tx) targetWallet 0 = Some targetIndex →
  preBalances tx !! targetIndex = Some balance →
  postBalances tx !! targetIndex = Some balance →
  parseSOLTransfers tx targetWallet = [].
Proof. apply parseSOLTransfers_unchanged. Qed.

Lemma unchanged_balance_no_transfer_witness :
  (find_targetIndex (accountKeys tx_idle_wallet) wallet_address 0 = Some 1%nat
   ∧ preBalances tx_idle_wallet !! 1%nat = Some 5%Z
   ∧ postBalances tx_idle_wallet !! 1%nat = Some 5%Z)
  ∧ parseSOLTransfers tx_idle_wallet wallet_address = [].
Proof.
  split; [repeat split; reflexivity|].
  apply (unchanged_balance_no_transfer tx_idle_wallet wallet_address 1 5);
    reflexivity.
Defined.

(** ** The poll cycle *)


Lemma newSignatures_all (cursor : option string) (l : list signature_info) :
  Forall (λ sig, Some (signature sig) ≠ cursor) l → newSignatures cursor l = l.
Proof.
  induction 1 as [|sig l Hsig _ IH]; [done|].
  rewrite newSignatures_cons, decide_False by done. by rewrite IH.
Qed.

(** After a cycle that found new ids the cursor is the newest id. *)
Lemma cycle_cursor {settings} (fallback : settings)
    (filters : transfer → settings → bool * settings)
    (getTransaction : string → option transaction)
    (sendMessage : Z → signature_info → send_outcome) (monitoredWallet : string)
    (newest : signature_info) (older : list signature_info) (m : monitor settings) :
  let r := checkForNewTransactions settings fallback filters getTransaction
             sendMessage monitoredWallet (newest :: older) m in
  (newSignatures (lastSignature m) (newest :: older) = [] ∧ r = (m, []))
  ∨ lastSignature r.1 = Some (signature newest).
Proof.
  intros r. subst r. unfold checkForNewTransactions.
  destruct (newSignatures (lastSignature m) (newest :: older)) as [|first new] eqn:Hnew;
    [by left|].
  right. replace (0 <? length (first :: new))%nat with true by done.
  rewrite !andThen_state. simpl. by rewrite process_all_lastSignature.
Qed.

Lemma cycle_twice {settings} (fallback : settings)
    (filters : transfer → settings → bool * settings)
    (rpc rpc' : string → option transaction)
    (send send' : Z → signature_info → send_outcome) (wallet : string)
    (signatures : list signature_info) (m : monitor settings) :
  let r := checkForNewTransactions settings fallback filters rpc send wallet
             signatures m in
  checkForNewTransactions settings fallback filters rpc' send' wallet signatures r.1
    = (r.1, []).
Proof.
  intros r. destruct signatures as [|newest older]; [done|].
  destruct (cycle_cursor fallback filters rpc send wallet newest older m)
    as [[Hnew Hr]|Hlast]; fold r in Hr || fold r in Hlast.
  - rewrite Hr. simpl. unfold checkForNewTransactions. by rewrite Hnew.
  - unfold checkForNewTransactions at 1. rewrite Hlast.
    rewrite newSignatures_cons, decide_True by done. done.
Qed.

Lemma hardcoded_loop_lastSignature
    (getTransaction : string → option transaction)
    (sendMessage : Z → signature_info → send_outcome) (monitoredWallet : string)
    (l : list signature_info) (m : Hardcoded.monitor) :
  Hardcoded.lastSignature
    (for_of l
       (λ sig, Hardcoded.processTransaction getTransaction sendMessage
                 monitoredWallet sig ;;
               modify (Hardcoded.set_lastSignature (Some (signature sig))) ;;
               Hardcoded.saveUserData) m).1
  = default (Hardcoded.lastSignature m) (Some ∘ signature <$> last l).
Proof.
  revert m. induction l as [|sig l IH]; intros m; [done|].
  rewrite for_of_cons, andThen_state. cbv beta. rewrite IH.
  pose proof (hardcoded_turn getTransaction sendMessage monitoredWallet sig m)
    as Hturn. cbv zeta in Hturn. destruct Hturn as [-> _].
  destruct l as [|sig' l]; [done|]. rewrite !last_cons.
  by destruct (last l).
Qed.

Lemma newSignatures_head (cursor : option string) (newest : signature_info)
    (older : list signature_info) :
  newSignatures cursor (newest :: older) = []
  ∨ ∃ new, newSignatures cursor (newest :: older) = newest :: new.
Proof.
  rewrite newSignatures_cons. destruct (decide _); [by left|]. right. eauto.
Qed.

Lemma hardcoded_cycle_lastSignature
    (rpc : string → option transaction)
    (send : Z → signature_info → send_outcome) (wallet : string)
    (signatures : list signature_info) (m : Hardcoded.monitor) :
  Hardcoded.lastSignature
    (Hardcoded.checkForNewTransactions rpc send wallet signatures m).1
  = default (Hardcoded.lastSignature m)
      (Some ∘ signature
         <$> head (newSignatures (Hardcoded.lastSignature m) signatures)).
Proof.
  unfold Hardcoded.checkForNewTransactions.
  destruct signatures as [|newest older]; [done|].
  destruct (newSignatures_head (Hardcoded.lastSignature m) newest older)
    as [Hnew|[new Hnew]]; rewrite Hnew; [done|].
  replace (0 <? length (newest :: new))%nat with true by done.
  rewrite hardcoded_loop_lastSignature.
  change (rev (newest :: new)) with (rev new ++ [newest]).
  by rewrite last_snoc.
Qed.

(** X6. A poll cycle run again on the same list of ids, with the cursor the
    first cycle left, makes no call and changes nothing, in each of the three
    files. *)
Theorem poll_twice (signatures : list signature_info)
    (rpc rpc' : string → option transaction)
    (send send' : Z → signature_info → send_outcome) (wallet : string)
    (mA : Index.monitor) (mB : FixedAmounts.monitor) (mC : Hardcoded.monitor) :
  let rA := Index.checkForNewTransactions rpc send wallet signatures mA in
  let rB := FixedAmounts.checkForNewTransactions rpc send wallet signatures mB in
  let rC := Hardcoded.checkForNewTransactions rpc send wallet signatures mC in
  Index.checkForNewTransactions rpc' send' wallet signatures rA.1 = (rA.1, [])
  ∧ FixedAmounts.checkForNewTransactions rpc' send' wallet signatures rB.1
    = (rB.1, [])
  ∧ Hardcoded.checkForNewTransactions rpc' send' wallet signatures rC.1
    = (rC.1, []).
Proof.
  intros rA rB rC. split; [apply cycle_twice|]. split; [apply cycle_twice|].
  subst rC. destruct signatures as [|newest older]; [done|].
  pose proof (hardcoded_cycle_lastSignature rpc send wallet (newest :: older) mC)
    as Hlast.
  assert (Hsame : newSignatures (Hardcoded.lastSignature mC) (newest :: older) = []
                  → Hardcoded.checkForNewTransactions rpc send wallet
                      (newest :: older) mC = (mC, [])).
  { intros Hnew. unfold Hardcoded.checkForNewTransactions. by rewrite Hnew. }
  set (r := Hardcoded.checkForNewTransactions rpc send wallet (newest :: older) mC)
    in *.
  unfold Hardcoded.checkForNewTransactions.
  destruct (newSignatures_head (Hardcoded.lastSignature mC) newest older)
    as [Hnew|[new Hnew]].
  - rewrite (Hsame Hnew). cbn [fst]. by rewrite Hnew.
  - rewrite Hlast, Hnew. cbn [head fmap option_fmap option_map default].
    unfold compose. rewrite newSignatures_cons, decide_True by done. done.
Qed.

(** X7. When no listed id is the cursor (the cursor is absent, or older than
    the page), [index.js] takes the whole list as new: it writes the newest
    id as the cursor and processes every listed id, oldest first. *)
Theorem cursor_not_listed (signatures : list signature_info)
    (rpc : string → option transaction)
    (send : Z → signature_info → send_outcome) (wallet : string)
    (m : Index.monitor) :
  Forall (λ sig, Some (signature sig) ≠ lastSignature m) signatures →
  let r := Index.checkForNewTransactions rpc send wallet signatures m in
  fetched r.2 = signature <$> rev signatures
  ∧ lastSignature r.1
    = default (lastSignature m) (Some ∘ signature <$> head signatures).
Proof.
  intros Hall r. subst r. unfold Index.checkForNewTransactions, checkForNewTransactions.
  destruct signatures as [|newest older]; [done|].
  rewrite (newSignatures_all _ _ Hall).
  replace (0 <? length (newest :: older))%nat with true by done.
  rewrite !andThen_state, !andThen_calls, !fetched_app. simpl.
  by rewrite process_all_fetched, process_all_lastSignature.
Qed.

Lemma cursor_not_listed_witness :
  Forall (λ sig, Some (signature sig) ≠ lastSignature (idle (Some "S0"))) three_ids
  ∧ let r := Index.checkForNewTransactions no_transaction always_delivered
               wallet_address three_ids (idle (Some "S0")) in
    fetched r.2 = ["S1"; "S2"; "S3"]
    ∧ lastSignature r.1 = Some "S3".
Proof.
  assert (H : Forall (λ sig, Some (signature sig) ≠ lastSignature (idle (Some "S0")))
                three_ids).
  { repeat apply Forall_cons_2; try apply Forall_nil_2; discriminate. }
  split; [exact H|].
  exact (cursor_not_listed three_ids no_transaction always_delivered
           wallet_address (idle (Some "S0")) H).
Defined.

(** X8. In the hardcoded file, every cursor that a poll cycle writes to the
    file is the id of a transaction it has already asked for, and the cycle
    ends with the newest new id as the cursor (the cursor stays when no id is
    new). *)
Theorem hardcoded_cycle_cursor (signatures : list signature_info)
    (rpc : string → option transaction)
    (send : Z → signature_info → send_outcome) (wallet : string)
    (m : Hardcoded.monitor) :
  let r := Hardcoded.checkForNewTransactions rpc send wallet signatures m in
  cursor_behind [Hardcoded.lastSignature m] (hardcoded_observe <$> r.2) = true
  ∧ Hardcoded.lastSignature r.1
    = default (Hardcoded.lastSignature m)
        (Some ∘ signature
           <$> head (newSignatures (Hardcoded.lastSignature m) signatures)).
Proof.
  intros r. split; [apply hardcoded_cursor_behind|].
  apply hardcoded_cycle_lastSignature.
Qed.

(** ** The dispatch loop *)

Lemma filter_ext_in {A} (P Q : A → Prop) `{∀ x, Decision (P x)}
    `{∀ x, Decision (Q x)} (l : list A) :
  (∀ x, x ∈ l → (P x ↔ Q x)) → filter P l = filter Q l.
Proof.
  induction l as [|x l IH]; intros Hl; [done|].
  rewrite !filter_cons.
  assert (HPQ : P x ↔ Q x) by (apply Hl, elem_of_cons; by left).
  rewrite IH by (intros y Hy; apply Hl, elem_of_cons; by right).
  destruct (decide (P x)), (decide (Q x)); tauto.
Qed.

Lemma alerted_app {settings} (es es' : list (event settings)) :
  alerted (es ++ es') = alerted es ++ alerted es'.
Proof. apply omap_app. Qed.

Lemma written_app {settings} (es es' : list (event settings)) :
  written (es ++ es') = written es ++ written es'.
Proof. apply omap_app. Qed.

Lemma notify_user_alerted {settings} (fallback : settings)
    (filters : transfer → settings → bool * settings)
    (send : Z → signature_info → send_outcome)
    (t : transfer) (sig : signature_info) (c : Z) (m : monitor settings) :
  alerted (notify_user settings fallback filters send t sig c m).2
    = if passes fallback filters t c m then [c] else [].
Proof.
  rewrite notify_user_cases.
  destruct (passes _ _ _ _ _); simpl; [by destruct (blocked_the_bot _)|done].
Qed.

(** The chats alerted by a loop over distinct chats: those that pass the
    filter block with the settings of the start, in the order of the loop. *)
Lemma alerted_filter {settings} (fallback : settings)
    (filters : transfer → settings → bool * settings)
    (send : Z → signature_info → send_outcome)
    (t : transfer) (sig : signature_info) (l : list Z) (m : monitor settings) :
  NoDup l →
  alerted (for_of l (notify_user settings fallback filters send t sig) m).2
    = filter (λ c, passes fallback filters t c m = true) l.
Proof.
  revert m. induction l as [|c l IH]; intros m Hnd; [done|].
  apply NoDup_cons in Hnd as [Hc Hnd].
  rewrite for_of_cons, andThen_calls, alerted_app, notify_user_alerted.
  rewrite IH by done. rewrite filter_cons.
  rewrite (filter_ext_in
             (λ k, passes fallback filters t k
                     (notify_user settings fallback filters send t sig c m).1 = true)
             (λ k, passes fallback filters t k m = true)).
  - destruct (passes fallback filters t c m);
      [by rewrite decide_True|by rewrite decide_False].
  - intros k Hk. assert (k ≠ c) as Hkc by (by intros ->).
    destruct (notify_user_other fallback filters send t sig c k m Hkc) as (_ & Hs & _).
    by rewrite (passes_lookup _ _ _ _ _ _ Hs).
Qed.

Lemma index_passes (t : transfer) (c : Z) (m : Index.monitor) :
  passes Index.fallback Index.filters t c m = index_accepts t (index_settings c m).
Proof.
  unfold passes, index_accepts, index_settings, Index.filters.
  destruct (lt _ _); [done|]. by destruct (bool_decide _).
Qed.

(** X9. In [index.js], the chats alerted for a transfer are the subscribers
    whose settings (or the default, minimum 0 and empty blacklist) accept it:
    the amount is not below the minimum and the sender is not in the
    blacklist.  Each gets one alert, in the order of subscription. *)
Theorem index_alerted (m : Index.monitor)
    (send : Z → signature_info → send_outcome)
    (t : transfer) (sig : signature_info) :
  NoDup (subscribedUsers m) →
  alerted (Index.notifyAllUsers send t sig m).2
    = filter (λ c, index_accepts t (index_settings c m) = true)
        (subscribedUsers m).
Proof.
  intros Hnd. unfold Index.notifyAllUsers, notifyAllUsers.
  rewrite alerted_filter by done.
  apply filter_ext_in. intros c _. by rewrite index_passes.
Qed.

Lemma index_alerted_witness :
  NoDup (subscribedUsers (blacklisting "Sender"))
  ∧ alerted (Index.notifyAllUsers always_delivered deposit (sig_ "S4")
               (blacklisting "Sender")).2 = [2%Z].
Proof.
  assert (Hnd : NoDup (subscribedUsers (blacklisting "Sender"))).
  { apply (bool_decide_unpack _). vm_compute. exact I. }
  split; [exact Hnd|].
  rewrite (index_alerted (blacklisting "Sender") always_delivered deposit
             (sig_ "S4") Hnd).
  by vm_compute.
Defined.

Lemma fixed_passes (t : transfer) (c : Z) (m : FixedAmounts.monitor) :
  passes FixedAmounts.fallback FixedAmounts.filters t c m
    = negb (bool_decide (from t ∈ FixedAmounts.blacklist (fixed_settings c m))).
Proof. unfold passes, fixed_settings. by rewrite fixed_filters_unfold. Qed.

(** X10. In the fixed-amounts file, the chats alerted for a transfer are the
    subscribers whose blacklist does not hold the sender, whatever their
    lists of amounts; and after the loop the stored list of amounts of every
    subscriber is empty. *)
Theorem fixed_alerted (m : FixedAmounts.monitor)
    (send : Z → signature_info → send_outcome)
    (t : transfer) (sig : signature_info) :
  NoDup (subscribedUsers m) →
  let r := FixedAmounts.notifyAllUsers send t sig m in
  alerted r.2
    = filter (λ c, from t ∉ FixedAmounts.blacklist (fixed_settings c m))
        (subscribedUsers m)
  ∧ ∀ c s, c ∈ subscribedUsers m → userSettings r.1 !! c = Some s →
           FixedAmounts.amount s = [].
Proof.
  intros Hnd r. subst r. unfold FixedAmounts.notifyAllUsers, notifyAllUsers. split.
  - rewrite alerted_filter by done.
    apply filter_ext_in. intros c _. rewrite fixed_passes.
    rewrite negb_true_iff, bool_decide_eq_false. done.
  - intros c s Hc.
    destruct (per_chat FixedAmounts.fallback FixedAmounts.filters send t sig c _ m
                Hnd Hc) as (_ & _ & ->).
    destruct (_ && _); [done|].
    destruct (userSettings m !! c) as [s0|]; [|done].
    simpl. rewrite fixed_filters_unfold. by intros [= <-].
Qed.

Lemma fixed_alerted_witness :
  NoDup (subscribedUsers (fixed_blacklisting "Other"))
  ∧ let r := FixedAmounts.notifyAllUsers always_delivered payout (sig_ "S4")
               (fixed_blacklisting "Other") in
    alerted r.2 = [1%Z; 2%Z]
    ∧ ∀ c s, c ∈ subscribedUsers (fixed_blacklisting "Other") →
             userSettings r.1 !! c = Some s → FixedAmounts.amount s = [].
Proof.
  assert (Hnd : NoDup (subscribedUsers (fixed_blacklisting "Other"))).
  { apply (bool_decide_unpack _). vm_compute. exact I. }
  split; [exact Hnd|].
  pose proof (fixed_alerted (fixed_blacklisting "Other") always_delivered payout
                (sig_ "S4") Hnd) as [Ha Hs].
  split; [|exact Hs].
  rewrite Ha. by vm_compute.
Defined.

Lemma index_after_filters (t : transfer) (c : Z) (m : Index.monitor) :
  after_filters Index.filters t c m = m.
Proof.
  unfold after_filters. destruct (userSettings m !! c) as [s|] eqn:Hs; [|done].
  assert (Hsame : (Index.filters t s).2 = s).
  { unfold Index.filters. destruct (lt _ _); [done|]. by destruct (bool_decide _). }
  rewrite Hsame, insert_id by done. by destruct m.
Qed.

Lemma index_quiet_loop (send : Z → signature_info → send_outcome)
    (t : transfer) (sig : signature_info) (l : list Z) (m : Index.monitor) :
  (∀ c, c ∈ l → blocked_the_bot (send c sig) = false) →
  (for_of l (notify_user Index.settings Index.fallback Index.filters send t sig) m).1
    = m
  ∧ written
      (for_of l (notify_user Index.settings Index.fallback Index.filters send t sig)
         m).2 = [].
Proof.
  induction l as [|c l IH]; intros Hl; [done|].
  rewrite for_of_cons, andThen_state, andThen_calls, written_app.
  assert (Hturn : notify_user Index.settings Index.fallback Index.filters send t sig
                    c m
                  = (m, if passes Index.fallback Index.filters t c m
                        then [telegram_sendMessage c t sig] else [])).
  { rewrite notify_user_cases, index_after_filters.
    rewrite (Hl c) by (apply elem_of_cons; by left).
    by destruct (passes _ _ _ _ _). }
  rewrite Hturn. cbn [fst snd].
  destruct IH as [-> ->]; [intros k Hk; apply Hl, elem_of_cons; by right|].
  by destruct (passes _ _ _ _ _).
Qed.

(** X11. In [index.js], a dispatch in which Telegram answers no subscriber
    with 403 (deliveries succeed or fail otherwise) leaves the subscribers,
    the settings and the cursor as they are and writes nothing to the
    file. *)
Theorem index_dispatch_without_403 (m : Index.monitor)
    (send : Z → signature_info → send_outcome)
    (t : transfer) (sig : signature_info) :
  (∀ c, c ∈ subscribedUsers m → blocked_the_bot (send c sig) = false) →
  (Index.notifyAllUsers send t sig m).1 = m
  ∧ written (Index.notifyAllUsers send t sig m).2 = [].
Proof. apply index_quiet_loop. Qed.

Lemma index_dispatch_without_403_witness :
  (∀ c, c ∈ subscribedUsers (blacklisting "Sender") →
        blocked_the_bot (blocked_by 3 c (sig_ "S4")) = false)
  ∧ (Index.notifyAllUsers (blocked_by 3) deposit (sig_ "S4")
       (blacklisting "Sender")).1 = blacklisting "Sender"
  ∧ written (Index.notifyAllUsers (blocked_by 3) deposit (sig_ "S4")
               (blacklisting "Sender")).2 = [].
Proof.
  assert (H : ∀ c, c ∈ subscribedUsers (blacklisting "Sender") →
                   blocked_the_bot (blocked_by 3 c (sig_ "S4")) = false).
  { intros c Hc. simpl in Hc.
    apply elem_of_cons in Hc as [->|Hc]; [reflexivity|].
    apply list_elem_of_singleton in Hc as ->. reflexivity. }
  split; [exact H|].
  exact (index_dispatch_without_403 (blacklisting "Sender") (blocked_by 3)
           deposit (sig_ "S4") H).
Defined.

Lemma hardcoded_alerts_app (es es' : list Hardcoded.event) :
  hardcoded_alerts (es ++ es') = hardcoded_alerts es ++ hardcoded_alerts es'.
Proof. apply omap_app. Qed.

Lemma hardcoded_loop_alerts (send : Z → signature_info → send_outcome)
    (t : transfer) (sig : signature_info) (l : list Z) (m : Hardcoded.monitor) :
  hardcoded_alerts (for_of l (Hardcoded.notify_user send t sig) m).2
    = (λ c, (c, t)) <$> l.
Proof.
  revert m. induction l as [|c l IH]; intros m; [done|].
  rewrite for_of_cons, andThen_calls, hardcoded_alerts_app, IH.
  unfold Hardcoded.notify_user. by destruct (blocked_the_bot _).
Qed.

Lemma hardcoded_process_alerts
    (rpc : string → option transaction)
    (send : Z → signature_info → send_outcome) (wallet : string)
    (sig : signature_info) (m : Hardcoded.monitor) :
  Forall (λ ct, includes Hardcoded.fixedSolAmounts (amount ct.2) = true
                ∧ ∃ tx, rpc (signature sig) = Some tx
                        ∧ ct.2 ∈ parseSOLTransfers tx wallet)
    (hardcoded_alerts (Hardcoded.processTransaction rpc send wallet sig m).2).
Proof.
  unfold Hardcoded.processTransaction. rewrite andThen_calls, hardcoded_alerts_app.
  simpl. destruct (rpc (signature sig)) as [tx|]; [|apply Forall_nil_2].
  assert (Hgen : ∀ (ts : list transfer) m,
    (∀ t, t ∈ ts → t ∈ parseSOLTransfers tx wallet) →
    Forall (λ ct, includes Hardcoded.fixedSolAmounts (amount ct.2) = true
                  ∧ ∃ tx0, Some tx = Some tx0 ∧ ct.2 ∈ parseSOLTransfers tx0 wallet)
      (hardcoded_alerts
         (for_of ts (λ t, if includes Hardcoded.fixedSolAmounts (amount t)
                          then Hardcoded.notifyAllUsers send t sig
                          else skip) m).2)).
  { clear m. induction ts as [|t ts IH]; intros m Hts; [apply Forall_nil_2|].
    rewrite for_of_cons, andThen_calls, hardcoded_alerts_app.
    apply Forall_app_2; [|apply IH; intros t' Ht'; apply Hts, elem_of_cons; by right].
    destruct (includes Hardcoded.fixedSolAmounts (amount t)) eqn:Hin;
      [|apply Forall_nil_2].
    unfold Hardcoded.notifyAllUsers. rewrite hardcoded_loop_alerts.
    apply Forall_fmap, Forall_forall. intros c _. simpl.
    split; [done|]. exists tx. split; [done|]. apply Hts, elem_of_cons. by left. }
  by apply Hgen.
Qed.

(** X12. In the hardcoded file, [notifyAllUsers] sends the alert to every
    subscriber, once, in the order of subscription: no setting filters it;
    and [processTransaction] alerts only for a transfer extracted from the
    transaction whose amount is one of the numbers 0.1, 0.15 and 0.3. *)
Theorem hardcoded_dispatch
    (rpc : string → option transaction)
    (send : Z → signature_info → send_outcome) (wallet : string)
    (t : transfer) (sig : signature_info) (m : Hardcoded.monitor) :
  hardcoded_alerts (Hardcoded.notifyAllUsers send t sig m).2
    = (λ c, (c, t)) <$> Hardcoded.subscribedUsers m
  ∧ Forall (λ ct, includes Hardcoded.fixedSolAmounts (amount ct.2) = true
                  ∧ ∃ tx, rpc (signature sig) = Some tx
                          ∧ ct.2 ∈ parseSOLTransfers tx wallet)
      (hardcoded_alerts (Hardcoded.processTransaction rpc send wallet sig m).2).
Proof. split; [apply hardcoded_loop_alerts|apply hardcoded_process_alerts]. Qed.

Lemma gt_zero_not_lt (x : number) : gt x zero = true → lt x zero = false.
Proof. by destruct x as [[]|[]| |[] ? ?]. Qed.

Lemma extracted_amount_positive (tx : transaction) (targetWallet : string)
    (t : transfer) :
  t ∈ parseSOLTransfers tx targetWallet → gt (amount t) zero = true.
Proof.
  unfold parseSOLTransfers.
  destruct (find_targetIndex (accountKeys tx) targetWallet 0) as [targetIndex|];
    [|by intros ?%elem_of_nil].
  simpl. intros Ht.
  destruct (gt (rise tx targetIndex) zero) eqn:Hup.
  - destruct (find_sender_first tx targetWallet targetIndex (rise tx targetIndex)
                (accountKeys tx) 0) as [[Hnil _]|(j & k & Hone & _)];
      rewrite ?Hnil, ?Hone in Ht; [by apply elem_of_nil in Ht|].
    by apply list_elem_of_singleton in Ht as ->.
  - destruct (lt (rise tx targetIndex) zero) eqn:Hdown; [|by apply elem_of_nil in Ht].
    destruct (find_receiver_first tx targetWallet targetIndex (rise tx targetIndex)
                (accountKeys tx) 0) as [[Hnil _]|(j & k & Hone & _)];
      rewrite ?Hnil, ?Hone in Ht; [by apply elem_of_nil in Ht|].
    apply list_elem_of_singleton in Ht as ->. by apply abs_of_negative.
Qed.

(** X13. In [index.js], a subscriber without settings is alerted for every
    transfer that [parseSOLTransfers] extracts: the default minimum 0 is
    never above the amount, and the default blacklist is empty. *)
Theorem default_subscriber_gets_all (m : Index.monitor)
    (send : Z → signature_info → send_outcome)
    (tx : transaction) (wallet : string) (t : transfer)
    (sig : signature_info) (c : Z) :
  t ∈ parseSOLTransfers tx wallet →
  NoDup (subscribedUsers m) → c ∈ subscribedUsers m →
  userSettings m !! c = None →
  alerts_to c (Index.notifyAllUsers send t sig m).2 = [(t, sig)].
Proof.
  intros Ht Hnd Hc Hnone.
  destruct (per_chat Index.fallback Index.filters send t sig c _ m Hnd Hc)
    as (Ha & _).
  unfold Index.notifyAllUsers, notifyAllUsers. rewrite Ha.
  rewrite index_passes. unfold index_accepts, index_settings. rewrite Hnone.
  cbn [default]. change (Index.minAmount Index.fallback) with zero.
  change (Index.blacklist Index.fallback) with (@nil string).
  rewrite (gt_zero_not_lt _ (extracted_amount_positive _ _ _ Ht)).
  rewrite bool_decide_eq_false_2; [done|]. by intros ?%elem_of_nil.
Qed.

Lemma default_subscriber_gets_all_witness :
  (deposit ∈ parseSOLTransfers tx_deposit wallet_address
   ∧ NoDup (subscribedUsers (blacklisting "Sender"))
   ∧ 2%Z ∈ subscribedUsers (blacklisting "Sender")
   ∧ userSettings (blacklisting "Sender") !! 2%Z = None)
  ∧ alerts_to 2 (Index.notifyAllUsers always_delivered deposit (sig_ "S4")
                   (blacklisting "Sender")).2 = [(deposit, sig_ "S4")].
Proof.
  assert (Ht : deposit ∈ parseSOLTransfers tx_deposit wallet_address).
  { replace (parseSOLTransfers tx_deposit wallet_address) with [deposit]
      by (by vm_compute).
    by apply list_elem_of_singleton. }
  assert (Hnd : NoDup (subscribedUsers (blacklisting "Sender"))).
  { apply (bool_decide_unpack _). vm_compute. exact I. }
  assert (Hc : 2%Z ∈ subscribedUsers (blacklisting "Sender")).
  { apply (bool_decide_unpack _). vm_compute. exact I. }
  split; [split; [exact Ht|split; [exact Hnd|split; [exact Hc|reflexivity]]]|].
  apply (default_subscriber_gets_all (blacklisting "Sender") always_delivered
           tx_deposit wallet_address deposit (sig_ "S4") 2 Ht Hnd Hc).
  reflexivity.
Defined.





(** ** The blacklist and minimum-amount handlers of [index.js] *)

Lemma lift_skip (b : Index.bot) : Index.lift skip b = (b, []).
Proof. by destruct b. Qed.

Lemma lift_calls (a : action Index.monitor Index.event) (b : Index.bot) :
  (Index.lift a b).2 = (a (Index.state b)).2.
Proof. unfold Index.lift. by destruct (a (Index.state b)). Qed.

Lemma lift_hears (a : action Index.monitor Index.event) (b : Index.bot) :
  Index.hears (Index.lift a b).1 = Index.hears b.
Proof. unfold Index.lift. by destruct (a (Index.state b)). Qed.

(** What the address handler does for a subscriber and a valid address. *)
Lemma on_address_accepted (ok : string → bool) (c : Z) (a : string) (b : Index.bot) :
  c ∈ subscribedUsers (Index.state b) → isValidSolanaAddress ok a = true →
  let s := index_settings c (Index.state b) in
  let m' := Index.set_settings c
              {| Index.minAmount := Index.minAmount s;
                 Index.blacklist := Index.blacklist s ++ [a] |} (Index.state b) in
  Index.on_address ok c a b
    = if bool_decide (a ∈ Index.blacklist s) then (b, [])
      else ({| Index.state := m'; Index.hears := Index.hears b |}, [fs_writeFile m']).
Proof.
  intros Hc Hok s m'. subst s m'. unfold Index.on_address, index_settings.
  destruct (bool_decide (a ∈ _)) eqn:Hin.
  - rewrite <- (lift_skip b). unfold Index.lift.
    by rewrite bool_decide_eq_true_2, Hok, Hin.
  - unfold Index.lift. by rewrite bool_decide_eq_true_2, Hok, Hin.
Qed.

Lemma index_settings_set (c k : Z) (s : Index.settings) (m : Index.monitor) :
  index_settings k (Index.set_settings c s m)
    = if decide (k = c) then s else index_settings k m.
Proof.
  unfold index_settings, Index.set_settings, set_userSettings. simpl.
  destruct (decide (k = c)) as [->|Hk].
  - by rewrite lookup_insert_eq.
  - by rewrite lookup_insert_ne.
Qed.

(** X15. In [index.js], when a subscriber sends a valid address, the address
    is in the subscriber's blacklist afterwards; the entries that were there
    keep their places in front of it; the minimum amount, the subscribers and
    the settings of the other chats stay; and sending the same address again
    changes nothing and writes nothing. *)
Theorem address_joins_blacklist (ok : string → bool) (c : Z) (a : string)
    (b : Index.bot) :
  c ∈ subscribedUsers (Index.state b) → isValidSolanaAddress ok a = true →
  let r := Index.on_address ok c a b in
  let old := index_settings c (Index.state b) in
  let new := index_settings c (Index.state r.1) in
  a ∈ Index.blacklist new
  ∧ Index.blacklist old `prefix_of` Index.blacklist new
  ∧ Index.minAmount new = Index.minAmount old
  ∧ subscribedUsers (Index.state r.1) = subscribedUsers (Index.state b)
  ∧ (∀ k, k ≠ c →
          index_settings k (Index.state r.1) = index_settings k (Index.state b))
  ∧ Index.on_address ok c a r.1 = (r.1, []).
Proof.
  intros Hc Hok r old new. subst r old new.
  pose proof (on_address_accepted ok c a b Hc Hok) as Hr. cbv zeta in Hr.
  destruct (bool_decide (a ∈ Index.blacklist (index_settings c (Index.state b))))
    eqn:Hin; rewrite Hr; cbn [fst snd Index.state].
  - apply bool_decide_eq_true in Hin. repeat split; try done.
  - rewrite index_settings_set, decide_True by done. cbn [Index.blacklist Index.minAmount].
    split; [apply elem_of_app; right; by apply list_elem_of_singleton|].
    split; [by apply prefix_app_r|]. split; [done|]. split; [done|].
    split; [intros k Hk; by rewrite index_settings_set, decide_False|].
    set (m' := Index.set_settings c _ (Index.state b)).
    set (b' := {| Index.state := m'; Index.hears := Index.hears b |}).
    assert (Hc' : c ∈ subscribedUsers (Index.state b')) by done.
    pose proof (on_address_accepted ok c a b' Hc' Hok) as Hr2. cbv zeta in Hr2.
    rewrite Hr2. rewrite bool_decide_eq_true_2; [done|].
    subst b' m'. cbn [Index.state]. rewrite index_settings_set, decide_True by done.
    cbn [Index.blacklist]. apply elem_of_app. right. by apply list_elem_of_singleton.
Qed.

Lemma address_joins_blacklist_witness :
  (1%Z ∈ subscribedUsers (Index.state (bot_of (blacklisting "Sender")))
   ∧ isValidSolanaAddress any_key wallet_address = true)
  ∧ let r := Index.on_address any_key 1 wallet_address
               (bot_of (blacklisting "Sender")) in
    Index.blacklist (index_settings 1 (Index.state r.1))
      = ["Sender"; wallet_address]
    ∧ Index.on_address any_key 1 wallet_address r.1 = (r.1, []).
Proof.
  assert (Hc : 1%Z ∈ subscribedUsers (Index.state (bot_of (blacklisting "Sender")))).
  { apply (bool_decide_unpack _). vm_compute. exact I. }
  split; [split; [exact Hc|reflexivity]|].
  split; [by vm_compute|].
  apply (address_joins_blacklist any_key 1 wallet_address
           (bot_of (blacklisting "Sender")) Hc). reflexivity.
Defined.

Lemma on_address_skips (ok : string → bool) (c : Z) (a : string) (b : Index.bot) :
  c ∉ subscribedUsers (Index.state b) ∨ isValidSolanaAddress ok a = false →
  Index.on_address ok c a b = (b, []).
Proof.
  intros H. rewrite <- (lift_skip b). unfold Index.on_address, Index.lift.
  destruct (bool_decide (c ∈ subscribedUsers (Index.state b))) eqn:Hc; [|done].
  apply bool_decide_eq_true in Hc. destruct H as [H|H]; [done|]. by rewrite H.
Qed.

(** X16. In [index.js], an address sent by a chat that is not subscribed, or
    an address that [isValidSolanaAddress] rejects, changes nothing and
    writes nothing. *)
Theorem address_rejected (ok : string → bool) (c : Z) (a : string) (b : Index.bot) :
  c ∉ subscribedUsers (Index.state b) ∨ isValidSolanaAddress ok a = false →
  Index.on_address ok c a b = (b, []).
Proof. apply on_address_skips. Qed.

Lemma address_rejected_witness :
  ((7%Z ∉ subscribedUsers (Index.state (bot_of (blacklisting "Sender"))))
   ∨ isValidSolanaAddress any_key wallet_address = false)
  ∧ Index.on_address any_key 7 wallet_address (bot_of (blacklisting "Sender"))
    = (bot_of (blacklisting "Sender"), []).
Proof.
  assert (H : 7%Z ∉ subscribedUsers (Index.state (bot_of (blacklisting "Sender")))).
  { apply (bool_decide_unpack _). vm_compute. exact I. }
  split; [left; exact H|].
  apply (address_rejected any_key 7 wallet_address (bot_of (blacklisting "Sender"))).
  left. exact H.
Defined.

(** What the remove handler does for a subscriber. *)
Lemma on_remove_subscribed (c : Z) (n : Z) (b : Index.bot) :
  c ∈ subscribedUsers (Index.state b) →
  let s := index_settings c (Index.state b) in
  let m' := Index.set_settings c
              {| Index.minAmount := Index.minAmount s;
                 Index.blacklist := delete (Z.to_nat (n - 1)) (Index.blacklist s) |}
              (Index.state b) in
  Index.on_remove c n b
    = if (0 <=? n - 1)%Z && (n - 1 <? Z.of_nat (length (Index.blacklist s)))%Z
      then ({| Index.state := m'; Index.hears := Index.hears b |}, [fs_writeFile m'])
      else (b, []).
Proof.
  intros Hc s m'. subst s m'. unfold Index.on_remove, index_settings.
  destruct (_ && _) eqn:Hrange.
  - unfold Index.lift. by rewrite bool_decide_eq_true_2, Hrange.
  - rewrite <- (lift_skip b). unfold Index.lift.
    by rewrite bool_decide_eq_true_2, Hrange.
Qed.

(** X17. In [index.js], when a subscriber sends a valid address that is not
    in the blacklist and then [remove n] with [n] the length of the new
    blacklist, the subscriber's settings are what they were before the
    address. *)
Theorem remove_undoes_address (ok : string → bool) (c : Z) (a : string)
    (b : Index.bot) :
  c ∈ subscribedUsers (Index.state b) → isValidSolanaAddress ok a = true →
  a ∉ Index.blacklist (index_settings c (Index.state b)) →
  let added := (Index.on_address ok c a b).1 in
  let n := Z.of_nat (length (Index.blacklist (index_settings c (Index.state added)))) in
  index_settings c (Index.state (Index.on_remove c n added).1)
    = index_settings c (Index.state b).
Proof.
  intros Hc Hok Hnew added n. subst n added.
  pose proof (on_address_accepted ok c a b Hc Hok) as Hr. cbv zeta in Hr.
  rewrite bool_decide_eq_false_2 in Hr by done. rewrite Hr. cbn [fst Index.state].
  set (old := index_settings c (Index.state b)).
  set (m' := Index.set_settings c _ (Index.state b)).
  assert (Hs : index_settings c m'
               = {| Index.minAmount := Index.minAmount old;
                    Index.blacklist := Index.blacklist old ++ [a] |}).
  { subst m'. by rewrite index_settings_set, decide_True. }
  assert (Hc' : c ∈ subscribedUsers
                      (Index.state {| Index.state := m'; Index.hears := Index.hears b |}))
    by done.
  pose proof (on_remove_subscribed c
                (Z.of_nat (length (Index.blacklist (index_settings c m'))))
                {| Index.state := m'; Index.hears := Index.hears b |} Hc')
    as Hrm. cbv zeta in Hrm. cbn [Index.state Index.hears] in Hrm.
  rewrite Hrm. clear Hrm.
  rewrite Hs. cbn [Index.blacklist Index.minAmount]. rewrite length_app. simpl length.
  replace (Z.of_nat (length (Index.blacklist old) + 1) - 1)%Z
    with (Z.of_nat (length (Index.blacklist old))) by lia.
  rewrite Nat2Z.id.
  replace ((0 <=? Z.of_nat (length (Index.blacklist old)))%Z
           && (Z.of_nat (length (Index.blacklist old))
               <? Z.of_nat (length (Index.blacklist old) + 1))%Z) with true.
  2:{ symmetry. apply andb_true_iff. split; [apply Z.leb_le|apply Z.ltb_lt]; lia. }
  cbn [fst Index.state]. rewrite index_settings_set, decide_True by done.
  rewrite delete_middle, app_nil_r. by destruct old.
Qed.

Lemma remove_undoes_address_witness :
  (1%Z ∈ subscribedUsers (Index.state (bot_of (blacklisting "Sender")))
   ∧ isValidSolanaAddress any_key wallet_address = true
   ∧ (wallet_address
        ∉ Index.blacklist
            (index_settings 1 (Index.state (bot_of (blacklisting "Sender"))))))
  ∧ let added := (Index.on_address any_key 1 wallet_address
                    (bot_of (blacklisting "Sender"))).1 in
    index_settings 1 (Index.state (Index.on_remove 1 2 added).1)
      = {| Index.minAmount := zero; Index.blacklist := ["Sender"] |}.
Proof.
  assert (Hc : 1%Z ∈ subscribedUsers (Index.state (bot_of (blacklisting "Sender")))).
  { apply (bool_decide_unpack _). vm_compute. exact I. }
  assert (Hnew : wallet_address
                   ∉ Index.blacklist
                       (index_settings 1
                          (Index.state (bot_of (blacklisting "Sender"))))).
  { apply (bool_decide_unpack _). vm_compute. exact I. }
  split; [split; [exact Hc|split; [reflexivity|exact Hnew]]|].
  exact (remove_undoes_address any_key 1 wallet_address
           (bot_of (blacklisting "Sender")) Hc eq_refl Hnew).
Defined.

Lemma on_remove_skips (c : Z) (n : Z) (b : Index.bot) :
  c ∉ subscribedUsers (Index.state b)
  ∨ (n < 1)%Z
  ∨ (Z.of_nat (length (Index.blacklist (index_settings c (Index.state b)))) < n)%Z →
  Index.on_remove c n b = (b, []).
Proof.
  intros H. destruct (decide (c ∈ subscribedUsers (Index.state b))) as [Hc|Hc].
  - pose proof (on_remove_subscribed c n b Hc) as Hr. cbv zeta in Hr. rewrite Hr.
    destruct H as [H|H]; [done|].
    replace ((0 <=? n - 1)%Z && _) with false; [done|].
    symmetry. apply andb_false_iff.
    destruct H as [H|H]; [left; apply Z.leb_gt|right; apply Z.ltb_ge]; lia.
  - rewrite <- (lift_skip b). unfold Index.on_remove, Index.lift.
    by rewrite bool_decide_eq_false_2.
Qed.

(** X18. In [index.js], [remove n] from a chat that is not subscribed, or
    with [n] below 1 or above the length of the blacklist, changes nothing
    and writes nothing. *)
Theorem remove_out_of_range (c : Z) (n : Z) (b : Index.bot) :
  c ∉ subscribedUsers (Index.state b)
  ∨ (n < 1)%Z
  ∨ (Z.of_nat (length (Index.blacklist (index_settings c (Index.state b)))) < n)%Z →
  Index.on_remove c n b = (b, []).
Proof. apply on_remove_skips. Qed.

Lemma remove_out_of_range_witness :
  ((1%Z ∉ subscribedUsers (Index.state (bot_of (blacklisting "Sender"))))
   ∨ (2 < 1)%Z
   ∨ (Z.of_nat (length (Index.blacklist
                          (index_settings 1
                             (Index.state (bot_of (blacklisting "Sender")))))) < 2)%Z)
  ∧ Index.on_remove 1 2 (bot_of (blacklisting "Sender"))
    = (bot_of (blacklisting "Sender"), []).
Proof.
  assert (H : (Z.of_nat (length (Index.blacklist
                  (index_settings 1
                     (Index.state (bot_of (blacklisting "Sender")))))) < 2)%Z).
  { reflexivity. }
  split; [right; right; exact H|].
  apply (remove_out_of_range 1 2 (bot_of (blacklisting "Sender"))).
  right. right. exact H.
Defined.

Lemma set_settings_keeps_blacklists (c : Z) (s : Index.settings) (m : Index.monitor) :
  NoDup (Index.blacklist s) → blacklists_NoDup m →
  blacklists_NoDup (Index.set_settings c s m).
Proof.
  intros Hs Hm k s'. unfold Index.set_settings, set_userSettings. simpl.
  destruct (decide (k = c)) as [->|Hk].
  - rewrite lookup_insert_eq. by intros [= <-].
  - rewrite lookup_insert_ne by done. apply Hm.
Qed.

Lemma index_settings_NoDup (c : Z) (m : Index.monitor) :
  blacklists_NoDup m → NoDup (Index.blacklist (index_settings c m)).
Proof.
  intros Hm. unfold index_settings.
  destruct (userSettings m !! c) as [s|] eqn:Hs; [by apply (Hm c)|].
  apply NoDup_nil_2.
Qed.

Lemma forget_keeps_blacklists (c : Z) (m : Index.monitor) :
  blacklists_NoDup m → blacklists_NoDup (forget Index.settings c m).
Proof.
  intros Hm k s. simpl. destruct (decide (k = c)) as [->|Hk].
  - by rewrite lookup_delete_eq.
  - rewrite lookup_delete_ne by done. apply Hm.
Qed.

Lemma index_notifyAllUsers_keeps_blacklists
    (send : Z → signature_info → send_outcome)
    (t : transfer) (sig : signature_info) (m : Index.monitor) :
  blacklists_NoDup m → blacklists_NoDup (Index.notifyAllUsers send t sig m).1.
Proof.
  unfold Index.notifyAllUsers, notifyAllUsers.
  apply (for_of_keeps blacklists_NoDup). clear. intros c m Hm.
  rewrite notify_user_cases, index_after_filters.
  destruct (passes _ _ _ _ _); simpl; [destruct (blocked_the_bot _); simpl|];
    [by apply forget_keeps_blacklists|done|done].
Qed.

Lemma handle_keeps_blacklists (i : Index.input) (b : Index.bot) :
  blacklists_NoDup (Index.state b) →
  blacklists_NoDup (Index.state (Index.handle i b).1).
Proof.
  intros Hb.
  destruct i as [c|c|c|c|c a|ok c a|c n|send t sig|rpc send wallet sigs];
    cbn [Index.handle].
  - unfold Index.on_start. by rewrite lift_state, andThen_state.
  - unfold Index.on_unsubscribe. rewrite lift_state, andThen_state. simpl.
    by apply forget_keeps_blacklists.
  - done.
  - done.
  - unfold Index.on_number. destruct (Index.hears b) as [|owner ?]; [done|].
    rewrite lift_state. unfold Index.min_amount_listener.
    destruct (decide _); [|done]. rewrite andThen_state. simpl.
    apply set_settings_keeps_blacklists; [|done]. simpl.
    by apply (index_settings_NoDup owner).
  - destruct (decide (c ∈ subscribedUsers (Index.state b))) as [Hc|Hc].
    + destruct (isValidSolanaAddress ok a) eqn:Hok;
        [|by rewrite on_address_skips by (by right)].
      pose proof (on_address_accepted ok c a b Hc Hok) as Hr. cbv zeta in Hr.
      rewrite Hr. destruct (bool_decide _) eqn:Hin; [done|]. simpl.
      apply bool_decide_eq_false in Hin.
      apply set_settings_keeps_blacklists; [|done]. simpl.
      apply NoDup_app. split; [by apply index_settings_NoDup|].
      split; [|apply NoDup_singleton].
      by intros x Hx ->%list_elem_of_singleton.
    + by rewrite on_address_skips by (by left).
  - destruct (decide (c ∈ subscribedUsers (Index.state b))) as [Hc|Hc].
    + pose proof (on_remove_subscribed c n b Hc) as Hr. cbv zeta in Hr.
      rewrite Hr. destruct (_ && _); [|done]. simpl.
      apply set_settings_keeps_blacklists; [|done]. simpl.
      eapply sublist_NoDup; [by apply index_settings_NoDup|apply sublist_delete].
    + by rewrite on_remove_skips by (by left).
  - rewrite lift_state. by apply index_notifyAllUsers_keeps_blacklists.
  - rewrite lift_state.
    unfold Index.checkForNewTransactions, checkForNewTransactions.
    destruct sigs as [|newest rest]; [done|].
    destruct (0 <? _)%nat; [|done].
    rewrite !andThen_state. simpl.
    apply (for_of_keeps blacklists_NoDup); [|done].
    clear. intros sig m Hm. unfold processTransaction. rewrite andThen_state. simpl.
    destruct (rpc (signature sig)); [|done].
    apply (for_of_keeps blacklists_NoDup); [|done].
    clear. intros t m Hm. by apply index_notifyAllUsers_keeps_blacklists.
Qed.

(** X19. In every state that the bot of [index.js] reaches from its start,
    by commands, texts and poll cycles in any order, the subscriber list
    holds no chat twice and no blacklist holds an address twice. *)
Theorem reachable_without_duplicates (b : Index.bot) :
  Index.reachable b →
  NoDup (subscribedUsers (Index.state b)) ∧ blacklists_NoDup (Index.state b).
Proof.
  intros Hb. split; [by apply reachable_NoDup|].
  destruct Hb as [inputs <-]. unfold Index.run.
  apply (for_of_keeps (λ b, blacklists_NoDup (Index.state b))).
  - intros i b' Hb'. by apply handle_keeps_blacklists.
  - intros c s. simpl. by rewrite lookup_empty.
Qed.

Lemma reachable_without_duplicates_witness :
  Index.reachable (Index.run leave_then_number Index.fresh).1
  ∧ NoDup (subscribedUsers
             (Index.state (Index.run leave_then_number Index.fresh).1))
  ∧ blacklists_NoDup (Index.state (Index.run leave_then_number Index.fresh).1).
Proof.
  assert (H : Index.reachable (Index.run leave_then_number Index.fresh).1).
  { exists leave_then_number. reflexivity. }
  split; [exact H|].
  exact (reachable_without_duplicates _ H).
Defined.

Lemma blacklisted_stored (a : string) (c : Z) (m : Index.monitor) :
  a ∈ Index.blacklist (index_settings c m) →
  ∃ s, userSettings m !! c = Some s ∧ a ∈ Index.blacklist s.
Proof.
  unfold index_settings. destruct (userSettings m !! c) as [s|]; [eauto|].
  by intros ?%elem_of_nil.
Qed.

(** X20. In [index.js], once a subscriber has sent a valid address, a
    transfer whose sender is that address is never alerted to that
    subscriber, whatever its amount. *)
Theorem address_then_dispatch (ok : string → bool) (c : Z) (a : string)
    (b : Index.bot) (send : Z → signature_info → send_outcome)
    (t : transfer) (sig : signature_info) :
  c ∈ subscribedUsers (Index.state b) → isValidSolanaAddress ok a = true →
  from t = a →
  alerts_to c
    (Index.notifyAllUsers send t sig (Index.state (Index.on_address ok c a b).1)).2
  = [].
Proof.
  intros Hc Hok Hfrom.
  assert (Hin : a ∈ Index.blacklist
                      (index_settings c (Index.state (Index.on_address ok c a b).1))).
  { pose proof (on_address_accepted ok c a b Hc Hok) as Hr. cbv zeta in Hr.
    rewrite Hr. destruct (bool_decide _) eqn:Hb.
    - by apply bool_decide_eq_true in Hb.
    - cbn [fst Index.state]. rewrite index_settings_set, decide_True by done.
      simpl. apply elem_of_app. right. by apply list_elem_of_singleton. }
  apply blacklisted_stored in Hin as (s & Hs & Hin).
  apply (refused_never_alerted Index.fallback Index.filters send
           (λ s, from t ∈ Index.blacklist s) t sig c _ _ s); [|done|by rewrite Hfrom].
  apply index_filters_blacklist.
Qed.

Lemma address_then_dispatch_witness :
  (2%Z ∈ subscribedUsers (Index.state (bot_of (blacklisting "Other")))
   ∧ isValidSolanaAddress any_key wallet_address = true
   ∧ from payout = wallet_address)
  ∧ alerts_to 2
      (Index.notifyAllUsers always_delivered payout (sig_ "S4")
         (Index.state (Index.on_address any_key 2 wallet_address
                         (bot_of (blacklisting "Other"))).1)).2 = [].
Proof.
  assert (Hc : 2%Z ∈ subscribedUsers (Index.state (bot_of (blacklisting "Other")))).
  { apply (bool_decide_unpack _). vm_compute. exact I. }
  split; [split; [exact Hc|split; reflexivity]|].
  exact (address_then_dispatch any_key 2 wallet_address
           (bot_of (blacklisting "Other")) always_delivered payout (sig_ "S4")
           Hc eq_refl eq_refl).
Defined.



(** X22. In [index.js], /unsubscribe followed by /start leaves the chat
    subscribed with no stored settings, so that it gets the default ones
    (minimum 0, empty blacklist), and leaves the settings of every other
    chat as they were. *)
Theorem resubscribe_resets (c : Z) (b : Index.bot) :
  let b' := (Index.on_start c (Index.on_unsubscribe c b).1).1 in
  c ∈ subscribedUsers (Index.state b')
  ∧ userSettings (Index.state b') !! c = None
  ∧ index_settings c (Index.state b') = Index.fallback
  ∧ ∀ k, k ≠ c →
         userSettings (Index.state b') !! k = userSettings (Index.state b) !! k.
Proof.
  intros b'. subst b'. unfold Index.on_start, Index.on_unsubscribe.
  rewrite !lift_state, !andThen_state. simpl.
  assert (Hnone : delete c (userSettings (Index.state b)) !! c = None)
    by apply lookup_delete_eq.
  split; [apply elem_of_set_add; by right|]. split; [done|].
  split; [unfold index_settings; simpl; by rewrite Hnone|].
  intros k Hk. by rewrite lookup_delete_ne.
Qed.

(** ** [loadUserData] *)

Lemma foldl_insert_list_to_map {settings} (l : list (Z * settings))
    (acc : gmap Z settings) :
  NoDup (l.*1) →
  foldl (λ m kv, <[kv.1 := kv.2]> m) acc l = list_to_map l ∪ acc.
Proof.
  revert acc. induction l as [|[k v] l IH]; intros acc Hnd.
  - simpl. by rewrite (left_id_L ∅ (∪)).
  - rewrite fmap_cons in Hnd. apply NoDup_cons in Hnd as [Hk Hnd].
    cbn [foldl fst snd]. rewrite IH by done.
    rewrite list_to_map_cons, <- insert_union_l. symmetry. apply insert_union_r.
    by apply not_elem_of_list_to_map_1.
Qed.

Lemma map_of_entries_to_list {settings} (m : gmap Z settings) :
  map_of_entries (map_to_list m) = m.
Proof.
  unfold map_of_entries.
  rewrite foldl_insert_list_to_map by apply NoDup_fst_map_to_list.
  by rewrite (right_id_L ∅ (∪)), list_to_map_to_list.
Qed.

Lemma foldl_set_add_NoDup (a acc : list Z) :
  NoDup acc → NoDup (foldl (λ s x, set_add x s) acc a).
Proof.
  revert acc. induction a as [|x a IH]; intros acc Hacc; [done|].
  simpl. by apply IH, set_add_NoDup.
Qed.

Lemma foldl_set_add_elem (a acc : list Z) (c : Z) :
  c ∈ foldl (λ s x, set_add x s) acc a ↔ c ∈ acc ∨ c ∈ a.
Proof.
  revert acc. induction a as [|x a IH]; intros acc; simpl.
  - rewrite elem_of_nil. tauto.
  - rewrite IH, elem_of_set_add, elem_of_cons. tauto.
Qed.

Lemma foldl_set_add_fresh (a acc : list Z) :
  NoDup (acc ++ a) → foldl (λ s x, set_add x s) acc a = acc ++ a.
Proof.
  revert acc. induction a as [|x a IH]; intros acc Hnd; simpl.
  - by rewrite app_nil_r.
  - assert (Hx : x ∉ acc).
    { apply NoDup_app in Hnd as (_ & Hdisj & _). intros Hx.
      apply (Hdisj x Hx). apply elem_of_cons. by left. }
    unfold set_add at 2. rewrite decide_False by done.
    rewrite IH; rewrite <- app_assoc; done.
Qed.

(** X23. Loading the object that [saveUserData] builds from a monitor gives
    that monitor back: the same settings for every chat, the same
    subscribers in the same order, the same cursor (for a cursor that is not
    the empty string; the subscribers of a monitor are a set). *)
Theorem load_what_was_saved {settings} (m m0 : monitor settings) :
  NoDup (subscribedUsers m) → lastSignature m ≠ Some "" →
  loadUserData (Some (data_of m)) m0 = m.
Proof.
  intros Hnd Hcursor. unfold loadUserData, data_of. simpl.
  rewrite map_of_entries_to_list.
  unfold set_of_array. rewrite foldl_set_add_fresh by done. simpl.
  assert (Hc : or_null (lastSignature m) = lastSignature m).
  { unfold or_null. destruct (lastSignature m) as [s|]; [|done].
    destruct (String.eqb_spec s "") as [->|]; done. }
  rewrite Hc. by destruct m.
Qed.

Lemma load_what_was_saved_witness :
  (NoDup (subscribedUsers (blacklisting "Sender"))
   ∧ lastSignature (blacklisting "Sender") ≠ Some "")
  ∧ loadUserData (Some (data_of (blacklisting "Sender"))) (idle None)
    = blacklisting "Sender".
Proof.
  assert (Hnd : NoDup (subscribedUsers (blacklisting "Sender"))).
  { apply (bool_decide_unpack _). vm_compute. exact I. }
  assert (Hc : lastSignature (blacklisting "Sender") ≠ Some "") by discriminate.
  split; [split; [exact Hnd|exact Hc]|].
  exact (load_what_was_saved (blacklisting "Sender") (idle None) Hnd Hc).
Defined.

(** X24. Whatever object the file holds, after [loadUserData] the subscriber
    list holds each chat of the file's array once and no other chat, and the
    cursor is not the empty string; a missing field gives no settings, no
    subscriber, no cursor.  A file that is missing or not JSON leaves the
    monitor as it is. *)
Theorem load_normalises {settings} (p : parsed settings) (m0 : monitor settings) :
  let m := loadUserData (Some p) m0 in
  NoDup (subscribedUsers m)
  ∧ (∀ c, c ∈ subscribedUsers m ↔ c ∈ default [] (parsed_subscribedUsers p))
  ∧ lastSignature m ≠ Some ""
  ∧ (parsed_userSettings p = None → userSettings m = ∅)
  ∧ (parsed_subscribedUsers p = None → subscribedUsers m = [])
  ∧ (parsed_lastSignature p = None → lastSignature m = None)
  ∧ loadUserData None m0 = m0.
Proof.
  intros m. subst m. simpl. unfold set_of_array.
  split; [apply foldl_set_add_NoDup, NoDup_nil_2|].
  split; [intros c; rewrite foldl_set_add_elem, elem_of_nil; tauto|].
  split.
  { unfold or_null. destruct (parsed_lastSignature p) as [s|]; [|done].
    destruct (String.eqb_spec s "") as [->|Hs]; [done|]. congruence. }
  split; [by intros ->|]. split; [by intros ->|]. split; [by intros ->|done].
Qed.

(** ** The amount helpers and handlers of the fixed-amounts file *)

Lemma abs_round_sign (s s' : bool) (m e : Z) (l : location) :
  abs (binary_round_aux prec emax s m e l)
    = abs (binary_round_aux prec emax s' m e l).
Proof.
  unfold binary_round_aux.
  destruct (shr_fexp prec emax m e l) as [mrs' e'].
  destruct (shr_fexp prec emax _ e' loc_Exact) as [mrs'' e''].
  destruct (shr_m mrs''); [done| |done]. by destruct (Z.leb _ _).
Qed.

Lemma abs_normalize_opp (z e : Z) :
  abs (binary_normalize prec emax z e false)
    = abs (binary_normalize prec emax (- z) e false).
Proof.
  destruct z as [|p|p]; [done| |]; simpl; unfold binary_round;
    destruct (shl_align _ _ _) as [mz ez]; apply abs_round_sign.
Qed.

Lemma abs_sub_comm (a b : number) : abs (sub a b) = abs (sub b a).
Proof.
  destruct a as [sa|sa| |sa ma ea]; destruct b as [sb|sb| |sb mb eb];
    try done; try (by destruct sa); try (by destruct sb);
    try (by destruct sa, sb).
  unfold sub, SFsub. rewrite (Z.min_comm eb ea).
  rewrite abs_normalize_opp. f_equal. f_equal. lia.
Qed.

Lemma floatEq_self (x : number) : is_finite x = true → Amounts.floatEq x x = true.
Proof.
  intros Hx. unfold Amounts.floatEq.
  assert (Hsub : sub x x = zero).
  { destruct x as [[]|[]| |s m e]; try done.
    unfold sub, SFsub. by rewrite Z.sub_diag. }
  by rewrite Hsub.
Qed.

(** X25. [floatEq] does not depend on the order of its two numbers; it holds
    between a finite number and itself, and it fails when one number is NaN
    and between an infinity and itself. *)
Theorem floatEq_symmetric (a b : number) :
  Amounts.floatEq a b = Amounts.floatEq b a
  ∧ (is_finite a = true → Amounts.floatEq a a = true)
  ∧ Amounts.floatEq NaN b = false
  ∧ Amounts.floatEq (S754_infinity false) (S754_infinity false) = false.
Proof.
  split; [unfold Amounts.floatEq; by rewrite abs_sub_comm|].
  split; [apply floatEq_self|]. split; [|done].
  unfold Amounts.floatEq. by rewrite sub_NaN_l.
Qed.

Lemma fixed_settings_set (c k : Z) (s : FixedAmounts.settings)
    (m : FixedAmounts.monitor) :
  fixed_settings k (Amounts.set_settings c s m)
    = if decide (k = c) then s else fixed_settings k m.
Proof.
  unfold fixed_settings, Amounts.set_settings, set_userSettings. simpl.
  destruct (decide (k = c)) as [->|Hk].
  - by rewrite lookup_insert_eq.
  - by rewrite lookup_insert_ne.
Qed.

Lemma finite_not_NaN (v : number) : is_finite v = true → Amounts.isNaN v = false.
Proof. by destruct v. Qed.

(** What the add listener does with a number from its own chat. *)
Lemma amount_add_own (c : Z) (v : number) (m : FixedAmounts.monitor) :
  Amounts.isNaN v = false →
  let s := fixed_settings c m in
  let s' := if existsb (λ a, Amounts.floatEq a v) (FixedAmounts.amount s) then s
            else {| FixedAmounts.amount := FixedAmounts.amount s ++ [v];
                    FixedAmounts.blacklist := FixedAmounts.blacklist s |} in
  Amounts.amount_add_handler c c v m
    = (Amounts.set_settings c s' m, [fs_writeFile (Amounts.set_settings c s' m)]).
Proof.
  intros Hv s s'. subst s s'. unfold Amounts.amount_add_handler, fixed_settings.
  rewrite Z.eqb_refl, Hv. cbn [negb]. by destruct (existsb _ _).
Qed.

Lemma existsb_app_r {A} (p : A → bool) (l : list A) (x : A) :
  p x = true → existsb p (l ++ [x]) = true.
Proof. intros Hx. rewrite existsb_app. simpl. rewrite Hx. by rewrite orb_true_r. Qed.

(** X26. In the fixed-amounts file, after the add listener has run on a
    finite number from its chat, the chat's list holds an amount within
    [eps] of the number; the amounts that were there keep their places: the
    list is unchanged when one of them is within [eps] of the number, and
    otherwise the number is appended; the blacklist stays; and the same
    number once more leaves the settings as they are. *)
Theorem amount_added (c : Z) (v : number) (m : FixedAmounts.monitor) :
  is_finite v = true →
  let r := Amounts.amount_add_handler c c v m in
  let old := fixed_settings c m in
  let new := fixed_settings c r.1 in
  existsb (λ a, Amounts.floatEq a v) (FixedAmounts.amount new) = true
  ∧ FixedAmounts.amount new
    = (if existsb (λ a, Amounts.floatEq a v) (FixedAmounts.amount old)
       then FixedAmounts.amount old else FixedAmounts.amount old ++ [v])
  ∧ FixedAmounts.blacklist new = FixedAmounts.blacklist old
  ∧ fixed_settings c (Amounts.amount_add_handler c c v r.1).1 = new.
Proof.
  intros Hv r old new. subst r old new.
  pose proof (amount_add_own c v m (finite_not_NaN v Hv)) as Hr. cbv zeta in Hr.
  rewrite Hr. cbn [fst]. rewrite fixed_settings_set, decide_True by done.
  set (old := fixed_settings c m) in *.
  set (s' := if existsb _ _ then old else _) in *.
  assert (Hclose : existsb (λ a, Amounts.floatEq a v) (FixedAmounts.amount s') = true).
  { subst s'. destruct (existsb _ (FixedAmounts.amount old)) eqn:Hold; [done|].
    simpl. apply existsb_app_r. by apply floatEq_self. }
  split; [exact Hclose|]. split; [subst s'; by destruct (existsb _ _)|].
  split; [subst s'; by destruct (existsb _ _)|].
  pose proof (amount_add_own c v (Amounts.set_settings c s' m)
                (finite_not_NaN v Hv)) as Hr2. cbv zeta in Hr2.
  rewrite Hr2. cbn [fst]. rewrite !fixed_settings_set, !decide_True by done.
  by rewrite Hclose.
Qed.

Lemma amount_added_witness :
  is_finite (decimal 1 2) = true
  ∧ let r := Amounts.amount_add_handler 1 1 (decimal 1 2)
               (fixed_blacklisting "Sender") in
    FixedAmounts.amount (fixed_settings 1 r.1) = [decimal 3 10; decimal 1 2]
    ∧ fixed_settings 1 (Amounts.amount_add_handler 1 1 (decimal 1 2) r.1).1
      = fixed_settings 1 r.1.
Proof.
  split; [reflexivity|].
  pose proof (amount_added 1 (decimal 1 2) (fixed_blacklisting "Sender") eq_refl)
    as (_ & Hnew & _ & Htwice).
  split; [rewrite Hnew; by vm_compute|exact Htwice].
Defined.

Lemma filter_not_close (value : number) (l : list number) (a : number) :
  In a (List.filter (λ a, negb (Amounts.floatEq a value)) l)
  ↔ In a l ∧ Amounts.floatEq a value = false.
Proof. rewrite filter_In, negb_true_iff. tauto. Qed.

Lemma filter_far (value : number) (l : list number) :
  existsb (λ a, Amounts.floatEq a value) l = false →
  List.filter (λ a, negb (Amounts.floatEq a value)) l = l.
Proof.
  induction l as [|a l IH]; [done|]. simpl.
  intros [Ha Hl]%orb_false_elim. rewrite Ha. simpl. f_equal. by apply IH.
Qed.

(** What the delete callback does. *)
Lemma amount_delete_result (c : Z) (value : number) (m : FixedAmounts.monitor) :
  let s := fixed_settings c m in
  let s' := {| FixedAmounts.amount :=
                 List.filter (λ a, negb (Amounts.floatEq a value))
                   (FixedAmounts.amount s);
               FixedAmounts.blacklist := FixedAmounts.blacklist s |} in
  Amounts.amount_delete c value m
    = (Amounts.set_settings c s' m, [fs_writeFile (Amounts.set_settings c s' m)]).
Proof. done. Qed.

(** X27. In the fixed-amounts file, after the delete callback for a value,
    the chat's list holds the amounts that were there and are not within
    [eps] of the value, and no other; the blacklist and the settings of the
    other chats stay. *)
Theorem amount_deleted (c : Z) (value : number) (m : FixedAmounts.monitor) :
  let r := Amounts.amount_delete c value m in
  let old := fixed_settings c m in
  let new := fixed_settings c r.1 in
  (∀ a, In a (FixedAmounts.amount new)
        ↔ In a (FixedAmounts.amount old) ∧ Amounts.floatEq a value = false)
  ∧ existsb (λ a, Amounts.floatEq a value) (FixedAmounts.amount new) = false
  ∧ FixedAmounts.blacklist new = FixedAmounts.blacklist old
  ∧ ∀ k, k ≠ c → fixed_settings k r.1 = fixed_settings k m.
Proof.
  intros r old new. subst r old new. rewrite amount_delete_result. cbn [fst].
  rewrite fixed_settings_set, decide_True by done. cbn [FixedAmounts.amount].
  split; [intros a; apply filter_not_close|]. split.
  - destruct (existsb _ _) eqn:Hex; [|done].
    apply existsb_exists in Hex as (a & Ha & Hclose).
    apply filter_not_close in Ha as [_ Hfar]. congruence.
  - split; [done|]. intros k Hk. by rewrite fixed_settings_set, decide_False.
Qed.

(** X28. In the fixed-amounts file, adding a finite number that is within
    [eps] of no amount of the list and then deleting it gives the list
    back. *)
Theorem delete_undoes_add (c : Z) (v : number) (m : FixedAmounts.monitor) :
  is_finite v = true →
  existsb (λ a, Amounts.floatEq a v) (FixedAmounts.amount (fixed_settings c m))
    = false →
  fixed_settings c
    (Amounts.amount_delete c v (Amounts.amount_add_handler c c v m).1).1
  = fixed_settings c m.
Proof.
  intros Hv Hfar.
  pose proof (amount_add_own c v m (finite_not_NaN v Hv)) as Hr. cbv zeta in Hr.
  rewrite Hr, Hfar. cbn [fst]. rewrite amount_delete_result. cbn [fst].
  rewrite !fixed_settings_set, !decide_True by done.
  cbn [FixedAmounts.amount FixedAmounts.blacklist].
  rewrite List.filter_app. simpl. rewrite (floatEq_self v Hv). simpl.
  rewrite app_nil_r, filter_far by done.
  by destruct (fixed_settings c m).
Qed.

Lemma delete_undoes_add_witness :
  (is_finite (decimal 1 2) = true
   ∧ existsb (λ a, Amounts.floatEq a (decimal 1 2))
       (FixedAmounts.amount (fixed_settings 1 (fixed_blacklisting "Sender")))
     = false)
  ∧ fixed_settings 1
      (Amounts.amount_delete 1 (decimal 1 2)
         (Amounts.amount_add_handler 1 1 (decimal 1 2)
            (fixed_blacklisting "Sender")).1).1
    = fixed_settings 1 (fixed_blacklisting "Sender").
Proof.
  assert (Hfar : existsb (λ a, Amounts.floatEq a (decimal 1 2))
                   (FixedAmounts.amount
                      (fixed_settings 1 (fixed_blacklisting "Sender"))) = false).
  { by vm_compute. }
  split; [split; [reflexivity|exact Hfar]|].
  exact (delete_undoes_add 1 (decimal 1 2) (fixed_blacklisting "Sender")
           eq_refl Hfar).
Defined.

Lemma findIndex_Some (p : number → bool) (l : list number) (i : nat) :
  Amounts.findIndex p l = Some i →
  (∃ a, l !! i = Some a ∧ p a = true)
  ∧ ∀ j b, (j < i)%nat → l !! j = Some b → p b = false.
Proof.
  revert i. induction l as [|a l IH]; intros i; [done|]. simpl.
  destruct (p a) eqn:Ha.
  - intros [= <-]. split; [by exists a|]. intros j b Hj. lia.
  - destruct (Amounts.findIndex p l) as [i'|]; [|done]. simpl. intros [= <-].
    destruct (IH i' eq_refl) as [Hhit Hbefore]. split; [done|].
    intros [|j] b Hj; simpl; [by intros [= <-]|]. apply Hbefore. lia.
Qed.

Lemma findIndex_None (p : number → bool) (l : list number) :
  Amounts.findIndex p l = None → existsb p l = false.
Proof.
  induction l as [|a l IH]; [done|]. simpl.
  destruct (p a); [done|]. destruct (Amounts.findIndex p l); [done|]. auto.
Qed.

(** What the edit listener does with a number from its own chat. *)
Lemma amount_edit_own (c : Z) (oldValue newValue : number)
    (m : FixedAmounts.monitor) :
  Amounts.isNaN newValue = false →
  let s := fixed_settings c m in
  let s' :=
    {| FixedAmounts.amount :=
         match Amounts.findIndex (λ a, Amounts.floatEq a oldValue)
                 (FixedAmounts.amount s) with
         | Some idx => <[idx := newValue]> (FixedAmounts.amount s)
         | None => FixedAmounts.amount s ++ [newValue]
         end;
       FixedAmounts.blacklist := FixedAmounts.blacklist s |} in
  Amounts.amount_edit_handler c c oldValue newValue m
    = (Amounts.set_settings c s' m, [fs_writeFile (Amounts.set_settings c s' m)]).
Proof.
  intros Hv s s'. subst s s'. unfold Amounts.amount_edit_handler, fixed_settings.
  by rewrite Z.eqb_refl, Hv.
Qed.

(** X29. In the fixed-amounts file, the edit listener, run on a number from
    its chat, writes the number over the first amount of the list that is
    within [eps] of the old value and leaves the other places and the length
    as they are; when no amount is within [eps] of the old value it appends
    the number.  The blacklist stays. *)
Theorem amount_edited (c : Z) (oldValue newValue : number)
    (m : FixedAmounts.monitor) :
  Amounts.isNaN newValue = false →
  let r := Amounts.amount_edit_handler c c oldValue newValue m in
  let old := fixed_settings c m in
  let new := fixed_settings c r.1 in
  FixedAmounts.blacklist new = FixedAmounts.blacklist old
  ∧ match Amounts.findIndex (λ a, Amounts.floatEq a oldValue)
            (FixedAmounts.amount old) with
    | Some idx =>
        FixedAmounts.amount new !! idx = Some newValue
        ∧ length (FixedAmounts.amount new) = length (FixedAmounts.amount old)
        ∧ (∀ j, j ≠ idx →
                FixedAmounts.amount new !! j = FixedAmounts.amount old !! j)
        ∧ (∃ a, FixedAmounts.amount old !! idx = Some a
                ∧ Amounts.floatEq a oldValue = true)
        ∧ (∀ j b, (j < idx)%nat → FixedAmounts.amount old !! j = Some b →
                  Amounts.floatEq b oldValue = false)
    | None =>
        FixedAmounts.amount new = FixedAmounts.amount old ++ [newValue]
        ∧ existsb (λ a, Amounts.floatEq a oldValue) (FixedAmounts.amount old)
          = false
    end.
Proof.
  intros Hv r old new. subst r old new.
  pose proof (amount_edit_own c oldValue newValue m Hv) as Hr. cbv zeta in Hr.
  rewrite Hr. cbn [fst]. rewrite fixed_settings_set, decide_True by done.
  cbn [FixedAmounts.blacklist FixedAmounts.amount].
  split; [done|].
  destruct (Amounts.findIndex _ _) as [idx|] eqn:Hfind.
  - destruct (findIndex_Some _ _ _ Hfind) as [(a & Ha & Hclose) Hbefore].
    split; [apply list_lookup_insert_eq; by eapply lookup_lt_Some|].
    split; [apply length_insert|].
    split; [intros j Hj; by apply list_lookup_insert_ne|].
    split; [by exists a|done].
  - split; [done|]. by apply findIndex_None.
Qed.

Lemma amount_edited_witness :
  Amounts.isNaN (decimal 1 2) = false
  ∧ FixedAmounts.amount
      (fixed_settings 1
         (Amounts.amount_edit_handler 1 1 (decimal 3 10) (decimal 1 2)
            (fixed_blacklisting "Sender")).1) !! 0%nat
    = Some (decimal 1 2).
Proof.
  split; [reflexivity|].
  pose proof (amount_edited 1 (decimal 3 10) (decimal 1 2)
                (fixed_blacklisting "Sender") eq_refl) as [_ H].
  cbv zeta in H.
  replace (Amounts.findIndex (λ a, Amounts.floatEq a (decimal 3 10))
             (FixedAmounts.amount (fixed_settings 1 (fixed_blacklisting "Sender"))))
    with (Some 0%nat) in H by (by vm_compute).
  exact (proj1 H).
Defined.

Lemma escaped_escape (after_backslash : bool) (text : string) :
  escaped after_backslash (Amounts.escapeMarkdownV2 text) = true.
Proof.
  revert after_backslash. induction text as [|x text IH]; intros flag; [done|].
  simpl. destruct (Amounts.special x) eqn:Hx.
  - cbn [escaped]. rewrite Hx, IH.
    replace (Amounts.special "\"%char) with false by done. done.
  - cbn [escaped]. by rewrite Hx, IH.
Qed.

(** X30. In the text that [escapeMarkdownV2] returns, every character of the
    class [_*[]()~`>#+-=|{}.!] comes right after a backslash; the text is
    longer than the given one by the number of such characters in it, and a
    text without any is returned as it is. *)
Theorem escapeMarkdownV2_escapes (text : string) :
  escaped false (Amounts.escapeMarkdownV2 text) = true
  ∧ String.length (Amounts.escapeMarkdownV2 text)
    = (String.length text + count_special text)%nat
  ∧ (count_special text = 0%nat → Amounts.escapeMarkdownV2 text = text).
Proof.
  split; [apply escaped_escape|]. split.
  - induction text as [|x text IH]; [done|]. simpl.
    destruct (Amounts.special x); simpl; rewrite IH; lia.
  - induction text as [|x text IH]; [done|]. simpl.
    destruct (Amounts.special x); [done|]. simpl. intros H. by rewrite IH.
Qed.
